(** * mailoney/export_mailoney_logs.py: export of the smtp_sessions table
      to a JSON Lines file

    The script is one function, [export_logs], that chains calls into
    Python's [sqlite3], [open] and [json] libraries.  The development has
    three layers:

    - [Py]: the Python values that [sqlite3] hands back, [zip] and [dict];
    - [Json]: what [json.dump] writes for such values, chunk by chunk, as
      the encoder of the standard library does with its default settings;
    - [Host]: the files at [DB_PATH] and [OUT_PATH], the library calls the
      script makes, as state passing over a [world], and [export_logs]
      itself, line for line.

    [RFC8259] is a strict decoder for JSON texts; it is the reference the
    output lines are checked against and is not part of the script. *)

From Stdlib Require Import ZArith NArith List Ascii String Bool Lia.
From Stdlib Require Import Decimal.
From Stdlib Require DecimalFacts DecimalPos DecimalN.
Import ListNotations.

Set Warnings "-register-all".

Local Open Scope char_scope.
Local Open Scope list_scope.

(** Text written to a file: a list of characters.  Everything the encoder
    emits is ASCII. *)
Definition text := list ascii.

Definition lit (s : string) : text := list_ascii_of_string s.

(** The double quote and the line feed. *)
Definition DQ : ascii := "034".
Definition LF : ascii := "010".

(** A decimal literal: an optional sign, the integer part, the digits after
    the point ([Nil] when there is no point) and the exponent, if any.  It
    is the shape of a JSON number and of what [float.__repr__] prints for a
    finite float. *)
Record number := mkNumber {
  n_neg : bool;
  n_int : N;
  n_frac : uint;
  n_exp : option Z
}.

(* ------------------------------------------------------------------ *)
(** ** Python values *)

Module Py.

(** A [str] is a sequence of Unicode code points. *)
Definition str := list N.

Definition str_of (s : string) : str := map N_of_ascii (list_ascii_of_string s).

Fixpoint str_eqb (a b : str) : bool :=
  match a, b with
  | [], [] => true
  | x :: a', y :: b' => N.eqb x y && str_eqb a' b'
  | _, _ => false
  end.

(** A finite float is identified with the literal [float.__repr__] prints
    for it; no arithmetic is done on floats. *)
Inductive float :=
| Finite (n : number)
| PosInf
| NegInf
| NaN.

(** The five kinds of value a sqlite3 row holds: NULL, INTEGER, REAL, TEXT
    and BLOB come back as None, int, float, str and bytes. *)
Inductive value :=
| VNone
| VInt (z : Z)
| VFloat (f : float)
| VStr (s : str)
| VBytes (b : list Byte.byte).

(** A row is a tuple of values. *)
Definition row := list value.

(** [zip] stops at the shorter argument. *)
Definition zip {A B} (xs : list A) (ys : list B) : list (A * B) := combine xs ys.

(** A [dict] keeps its keys in insertion order; storing under a key that is
    present replaces the value and leaves the key where it is. *)
Definition dict := list (str * value).

Fixpoint setitem (d : dict) (k : str) (v : value) : dict :=
  match d with
  | [] => [(k, v)]
  | (k', v') :: d' =>
      if str_eqb k' k then (k', v) :: d' else (k', v') :: setitem d' k v
  end.

(** [dict(pairs)]: the pairs are stored one after the other. *)
Definition dict_of (pairs : list (str * value)) : dict :=
  fold_left (fun d kv => setitem d (fst kv) (snd kv)) pairs [].

Definition keys (d : dict) : list str := map fst d.
Definition values (d : dict) : list value := map snd d.

End Py.

(* ------------------------------------------------------------------ *)
(** ** The json encoder with its default settings

    [json.dump(obj, fp)] is
    [for chunk in _default_encoder.iterencode(obj): fp.write(chunk)], with
    ensure_ascii and allow_nan on, separators [", "] and [": "], no
    indentation, no [default] hook. *)

Module Json.
Import Py.

(** One hexadecimal digit, lower case. *)
Definition hexdigit (n : N) : ascii :=
  if (n <? 10)%N then ascii_of_N (48 + n) else ascii_of_N (87 + n).

(** ['{0:04x}'.format(n)] for [n < 0x10000]. *)
Definition hex4 (n : N) : text :=
  [hexdigit (n / 4096 mod 16); hexdigit (n / 256 mod 16);
   hexdigit (n / 16 mod 16); hexdigit (n mod 16)]%N.

Definition u_escape (n : N) : text := "\" :: "u" :: hex4 n.

(** The replacement of one code point in [py_encode_basestring_ascii]:
    ESCAPE_DCT for the backslash, the quote and the control characters,
    the character itself from space to tilde, a [\uXXXX] escape below
    0x10000 and a surrogate pair above. *)
Definition escape_char (c : N) : text :=
  if (c =? 92)%N then ["\"; "\"]
  else if (c =? 34)%N then ["\"; DQ]
  else if (c =? 8)%N then ["\"; "b"]
  else if (c =? 12)%N then ["\"; "f"]
  else if (c =? 10)%N then ["\"; "n"]
  else if (c =? 13)%N then ["\"; "r"]
  else if (c =? 9)%N then ["\"; "t"]
  else if ((32 <=? c) && (c <=? 126))%N then [ascii_of_N c]
  else if (c <? 65536)%N then u_escape c
  else
    let n := (c - 65536)%N in
    let s1 := N.lor 55296 (N.land (N.shiftr n 10) 1023) in
    let s2 := N.lor 56320 (N.land n 1023) in
    u_escape s1 ++ u_escape s2.

Definition encode_basestring_ascii (s : str) : text :=
  DQ :: flat_map escape_char s ++ [DQ].

Fixpoint uint_text (d : uint) : text :=
  match d with
  | Nil => []
  | D0 d => "0" :: uint_text d
  | D1 d => "1" :: uint_text d
  | D2 d => "2" :: uint_text d
  | D3 d => "3" :: uint_text d
  | D4 d => "4" :: uint_text d
  | D5 d => "5" :: uint_text d
  | D6 d => "6" :: uint_text d
  | D7 d => "7" :: uint_text d
  | D8 d => "8" :: uint_text d
  | D9 d => "9" :: uint_text d
  end.

Definition N_text (n : N) : text := uint_text (N.to_uint n).

(** [int.__repr__]: decimal, with a minus sign below zero. *)
Definition intstr (z : Z) : text :=
  if (z <? 0)%Z then "-" :: N_text (Z.abs_N z) else N_text (Z.abs_N z).

(** The exponent as [repr] prints it: a sign and at least two digits. *)
Definition exp_text (e : Z) : text :=
  "e" :: (if (e <? 0)%Z then "-" else "+")
      :: (if (Z.abs_N e <? 10)%N then "0" :: N_text (Z.abs_N e)
          else N_text (Z.abs_N e)).

(** [float.__repr__] of a finite float. *)
Definition float_repr (n : number) : text :=
  (if n_neg n then ["-"] else [])
  ++ N_text (n_int n)
  ++ (match n_frac n with Nil => [] | d => "." :: uint_text d end)
  ++ (match n_exp n with None => [] | Some e => exp_text e end).

(** [floatstr] of the encoder, allow_nan being on. *)
Definition floatstr (f : float) : text :=
  match f with
  | NaN => lit "NaN"
  | PosInf => lit "Infinity"
  | NegInf => lit "-Infinity"
  | Finite n => float_repr n
  end.

(** What the encoder yields for a value of a dict: [None] stands for the
    TypeError ("Object of type bytes is not JSON serializable") that
    [_default] raises. *)
Definition encode_value (v : value) : option text :=
  match v with
  | VStr s => Some (encode_basestring_ascii s)
  | VNone => Some (lit "null")
  | VInt z => Some (intstr z)
  | VFloat f => Some (floatstr f)
  | VBytes _ => None
  end.

Definition serializable (v : value) : bool :=
  match v with VBytes _ => false | _ => true end.

(** A generator that has been started: the chunks it yields, ending in
    normal exhaustion or in a raised TypeError. *)
Inductive chunks :=
| Done
| Yield (c : text) (rest : chunks)
| Throw.

(** The loop of [_iterencode_dict] over the items. *)
Fixpoint iterencode_items (first : bool) (items : dict) : chunks :=
  match items with
  | [] => Yield ["}"] Done
  | (k, v) :: items' =>
      let body :=
        Yield (encode_basestring_ascii k)
          (Yield [":"; " "]
             (match encode_value v with
              | Some t => Yield t (iterencode_items false items')
              | None => Throw
              end)) in
      if first then body else Yield [","; " "] body
  end.

(** [_iterencode_dict]: the empty dict is one chunk. *)
Definition iterencode_dict (d : dict) : chunks :=
  match d with
  | [] => Yield ["{"; "}"] Done
  | _ => Yield ["{"] (iterencode_items true d)
  end.

(** All the chunks joined, and whether the generator ended normally. *)
Fixpoint joined (g : chunks) : text :=
  match g with
  | Done => []
  | Yield c g' => c ++ joined g'
  | Throw => []
  end.

Fixpoint completes (g : chunks) : bool :=
  match g with
  | Done => true
  | Yield _ g' => completes g'
  | Throw => false
  end.

End Json.

(* ------------------------------------------------------------------ *)
(** ** A strict decoder for JSON texts (RFC 8259)

    The reference against which the exported lines are judged.  It reads
    ASCII texts: a raw byte above 0x7f is refused, which is enough for what
    [json.dump] writes with ensure_ascii on.  The literals NaN, Infinity and
    -Infinity are not JSON and are refused. *)

Module RFC8259.

Inductive json :=
| JNull
| JTrue
| JFalse
| JNumber (n : number)
| JString (s : list N)
| JArray (l : list json)
| JObject (m : list (list N * json)).

Definition is_ws (c : ascii) : bool :=
  let n := N_of_ascii c in
  ((n =? 32) || (n =? 9) || (n =? 10) || (n =? 13))%N.

Fixpoint skip_ws (s : text) : text :=
  match s with
  | c :: s' => if is_ws c then skip_ws s' else s
  | [] => []
  end.

Fixpoint strip (p s : text) : option text :=
  match p, s with
  | [], _ => Some s
  | a :: p', b :: s' => if Ascii.eqb a b then strip p' s' else None
  | _ :: _, [] => None
  end.

Definition digit_of (c : ascii) : option (uint -> uint) :=
  match N_of_ascii c with
  | 48 => Some D0 | 49 => Some D1 | 50 => Some D2 | 51 => Some D3
  | 52 => Some D4 | 53 => Some D5 | 54 => Some D6 | 55 => Some D7
  | 56 => Some D8 | 57 => Some D9
  | _ => None
  end%N.

(** The longest run of digits at the head of the text. *)
Fixpoint read_digits (s : text) : uint * text :=
  match s with
  | [] => (Nil, [])
  | c :: s' =>
      match digit_of c with
      | Some d => let (u, r) := read_digits s' in (d u, r)
      | None => (Nil, s)
      end
  end.

(** number = [ minus ] int [ frac ] [ exp ] *)
Definition is_nil (u : uint) : bool :=
  match u with Nil => true | _ => false end.

(** int = zero / ( digit1-9 *DIGIT ): no leading zero. *)
Definition canonical (u : uint) : bool :=
  match u with
  | Nil => false
  | D0 Nil => true
  | D0 _ => false
  | _ => true
  end.

Definition parse_sign (s : text) : bool * text :=
  match s with
  | c :: r => if Ascii.eqb c "-" then (true, r) else (false, s)
  | [] => (false, s)
  end.

Definition parse_exp_sign (s : text) : bool * text :=
  match s with
  | c :: r =>
      if Ascii.eqb c "-" then (true, r)
      else if Ascii.eqb c "+" then (false, r)
      else (false, s)
  | [] => (false, s)
  end.

Definition signed (neg : bool) (m : N) : Z :=
  if neg then (- Z.of_N m)%Z else Z.of_N m.

Definition parse_exp (s : text) : option (option Z * text) :=
  match s with
  | c :: r =>
      if Ascii.eqb c "e" || Ascii.eqb c "E" then
        let (neg, r1) := parse_exp_sign r in
        let (e, r2) := read_digits r1 in
        if is_nil e then None else Some (Some (signed neg (N.of_uint e)), r2)
      else Some (None, s)
  | [] => Some (None, s)
  end.

Definition parse_frac (s : text) : option (uint * text) :=
  match s with
  | c :: r =>
      if Ascii.eqb c "." then
        let (f, r1) := read_digits r in
        if is_nil f then None else Some (f, r1)
      else Some (Nil, s)
  | [] => Some (Nil, s)
  end.

Definition parse_number (s : text) : option (number * text) :=
  let (neg, s1) := parse_sign s in
  let (i, s2) := read_digits s1 in
  if canonical i then
    match parse_frac s2 with
    | Some (f, s3) =>
        match parse_exp s3 with
        | Some (e, s4) => Some (mkNumber neg (N.of_uint i) f e, s4)
        | None => None
        end
    | None => None
    end
  else None.

Definition hexval (c : ascii) : option N :=
  let n := N_of_ascii c in
  if ((48 <=? n) && (n <=? 57))%N then Some (n - 48)%N
  else if ((97 <=? n) && (n <=? 102))%N then Some (n - 87)%N
  else if ((65 <=? n) && (n <=? 70))%N then Some (n - 55)%N
  else None.

Definition hex4val (a b c d : ascii) : option N :=
  match hexval a, hexval b, hexval c, hexval d with
  | Some x, Some y, Some z, Some w => Some (((x * 16 + y) * 16 + z) * 16 + w)%N
  | _, _, _, _ => None
  end.

(** The character after a backslash, [u] apart. *)
Definition simple_escape (c : ascii) : option N :=
  match N_of_ascii c with
  | 34 => Some 34 | 92 => Some 92 | 47 => Some 47
  | 98 => Some 8 | 102 => Some 12 | 110 => Some 10
  | 114 => Some 13 | 116 => Some 9
  | _ => None
  end%N.

Definition consto {A B} (x : A) (r : option (list A * B)) : option (list A * B) :=
  match r with
  | Some (l, b) => Some (x :: l, b)
  | None => None
  end.

(** The characters of a string, after its opening quote and up to its
    closing quote, as UTF-16 code units. *)
Fixpoint parse_chars (s : text) : option (list N * text) :=
  match s with
  | [] => None
  | c :: s' =>
      let n := N_of_ascii c in
      if (n =? 34)%N then Some ([], s')
      else if (n =? 92)%N then
        match s' with
        | e :: s'' =>
            match simple_escape e with
            | Some u => consto u (parse_chars s'')
            | None =>
                if Ascii.eqb e "u" then
                  match s'' with
                  | a :: b :: c' :: d :: s3 =>
                      match hex4val a b c' d with
                      | Some u => consto u (parse_chars s3)
                      | None => None
                      end
                  | _ => None
                  end
                else None
            end
        | [] => None
        end
      else if ((n <? 32) || (127 <? n))%N then None
      else consto n (parse_chars s')
  end.

Definition is_high (u : N) : bool := ((55296 <=? u) && (u <=? 56319))%N.
Definition is_low (u : N) : bool := ((56320 <=? u) && (u <=? 57343))%N.

(** A high surrogate followed by a low one is one code point. *)
Fixpoint join_surrogates (u : list N) : list N :=
  match u with
  | [] => []
  | a :: u' =>
      match u' with
      | b :: u'' =>
          if is_high a && is_low b
          then (65536 + (a - 55296) * 1024 + (b - 56320))%N :: join_surrogates u''
          else a :: join_surrogates u'
      | [] => [a]
      end
  end.

Definition parse_string (s : text) : option (list N * text) :=
  match parse_chars s with
  | Some (u, r) => Some (join_surrogates u, r)
  | None => None
  end.

Fixpoint parse_value (fuel : nat) (s : text) {struct fuel} : option (json * text) :=
  match fuel with
  | O => None
  | S f =>
      match s with
      | [] => None
      | c :: r =>
          if Ascii.eqb c DQ then
            match parse_string r with
            | Some (u, r') => Some (JString u, r')
            | None => None
            end
          else if Ascii.eqb c "{" then
            match strip ["}"] (skip_ws r) with
            | Some r' => Some (JObject [], r')
            | None =>
                match parse_members f (skip_ws r) with
                | Some (m, r') => Some (JObject m, r')
                | None => None
                end
            end
          else if Ascii.eqb c "[" then
            match strip ["]"] (skip_ws r) with
            | Some r' => Some (JArray [], r')
            | None =>
                match parse_elements f (skip_ws r) with
                | Some (l, r') => Some (JArray l, r')
                | None => None
                end
            end
          else
            match strip (lit "null") s with
            | Some r' => Some (JNull, r')
            | None =>
            match strip (lit "true") s with
            | Some r' => Some (JTrue, r')
            | None =>
            match strip (lit "false") s with
            | Some r' => Some (JFalse, r')
            | None =>
            match parse_number s with
            | Some (n, r') => Some (JNumber n, r')
            | None => None
            end end end end
      end
  end

with parse_members (fuel : nat) (s : text) {struct fuel}
  : option (list (list N * json) * text) :=
  match fuel with
  | O => None
  | S f =>
      match strip [DQ] s with
      | None => None
      | Some r =>
      match parse_string r with
      | None => None
      | Some (k, r1) =>
      match strip [":"] (skip_ws r1) with
      | None => None
      | Some r2 =>
      match parse_value f (skip_ws r2) with
      | None => None
      | Some (v, r3) =>
          match strip ["}"] (skip_ws r3) with
          | Some r4 => Some ([(k, v)], r4)
          | None =>
              match strip [","] (skip_ws r3) with
              | None => None
              | Some r4 =>
                  match parse_members f (skip_ws r4) with
                  | Some (m, r5) => Some ((k, v) :: m, r5)
                  | None => None
                  end
              end
          end
      end end end end
  end

with parse_elements (fuel : nat) (s : text) {struct fuel}
  : option (list json * text) :=
  match fuel with
  | O => None
  | S f =>
      match parse_value f s with
      | None => None
      | Some (v, r) =>
          match strip ["]"] (skip_ws r) with
          | Some r1 => Some ([v], r1)
          | None =>
              match strip [","] (skip_ws r) with
              | None => None
              | Some r1 =>
                  match parse_elements f (skip_ws r1) with
                  | Some (l, r2) => Some (v :: l, r2)
                  | None => None
                  end
              end
          end
      end
  end.

(** A JSON text is one value with white space around it. *)
Definition loads (s : text) : option json :=
  match parse_value (S (List.length s)) (skip_ws s) with
  | Some (v, r) => match skip_ws r with [] => Some v | _ => None end
  | None => None
  end.

Definition valid (s : text) : bool :=
  match loads s with Some _ => true | None => false end.

End RFC8259.

(* ------------------------------------------------------------------ *)
(** ** The host: two files, the library calls, and the script

    The host is one in which nothing but the script works on the two
    files while it runs, as the script assumes: no other connection holds
    a lock on the database, the TEXT stored in it is valid UTF-8, and the
    disk takes what is written.  Where that fails, [execute] can raise
    "database is locked", [fetchall] can raise on text it cannot decode,
    and a write or the close of the file can raise an OSError; no world
    below stands for such a run, and no statement is made about one. *)

Module Host.
Import Py Json.

Definition DB_PATH : string := "/home/honeypot/honeypot/mailoney/mailoney.db".
Definition OUT_PATH : string :=
  "/home/honeypot/honeypot/mailoney/mailoney/logs/mailoney.json".

(** A table: its column names in declaration order and its rows in the
    order a full scan returns them.  SQLite gives every row one value per
    column and refuses two columns of one name; neither is built into the
    type, so that line 18 of the script can be studied on any pair of
    lists. *)
Record table := mkTable {
  t_columns : list str;
  t_rows : list row
}.

(** What is found at [DB_PATH]. *)
Inductive db_file :=
| Absent (creatable : bool)
    (** no file; [creatable] says whether one can be created there *)
| Unopenable
    (** something is there that cannot be opened: no permission, a
        directory *)
| NotADatabase
    (** a file that is not an SQLite database *)
| Database (tables : list (string * table)).

(** SQLite compares table names without regard to ASCII case. *)
Definition lower (c : ascii) : ascii :=
  let n := N_of_ascii c in
  if ((65 <=? n) && (n <=? 90))%N then ascii_of_N (n + 32) else c.

Fixpoint lower_string (s : string) : string :=
  match s with
  | EmptyString => EmptyString
  | String c s' => String (lower c) (lower_string s')
  end.

Definition find_table (name : string) (ts : list (string * table)) : option table :=
  match find (fun nt => String.eqb (lower_string (fst nt)) (lower_string name)) ts with
  | Some nt => Some (snd nt)
  | None => None
  end.

(** The statements the script executes. *)
Inductive statement :=
| SelectAllFrom (name : string).

(** An entry of [cursor.description]: a 7-tuple whose first component is
    the column name; sqlite3 leaves the other six None. *)
Record description := mkDescription { d_name : str }.

(** The calls that acquire, query or release one of the two resources.
    [conn.cursor()], [json.dump] and [f.write] are not among them: what
    they do is seen in [result_set] and in [out]. *)
Inductive call :=
| CConnect
| CExecute
| CFetchall
| COpen
| CCloseFile
| CCloseConn.

Inductive exn :=
| OperationalError (msg : string)
| DatabaseError (msg : string)
| OSError
| TypeError (msg : string).

Record world := mkWorld {
  db : db_file;
    (** what is at [DB_PATH] *)
  out : option text;
    (** the content of the file at [OUT_PATH], if there is one *)
  out_openable : bool;
    (** whether [OUT_PATH] can be opened for writing *)
  connections : nat;
    (** open sqlite3 connections *)
  handles : nat;
    (** open file objects *)
  result_set : option (list description * list row);
    (** the description and the pending rows of the cursor *)
  trace : list call
    (** the calls of type [call] made so far, oldest first *)
}.

Definition set_db (d : db_file) (w : world) : world :=
  mkWorld d (out w) (out_openable w) (connections w) (handles w) (result_set w) (trace w).
Definition set_out (o : option text) (w : world) : world :=
  mkWorld (db w) o (out_openable w) (connections w) (handles w) (result_set w) (trace w).
Definition set_connections (n : nat) (w : world) : world :=
  mkWorld (db w) (out w) (out_openable w) n (handles w) (result_set w) (trace w).
Definition set_handles (n : nat) (w : world) : world :=
  mkWorld (db w) (out w) (out_openable w) (connections w) n (result_set w) (trace w).
Definition set_result_set (r : option (list description * list row)) (w : world) : world :=
  mkWorld (db w) (out w) (out_openable w) (connections w) (handles w) r (trace w).
Definition log (c : call) (w : world) : world :=
  mkWorld (db w) (out w) (out_openable w) (connections w) (handles w) (result_set w)
          (trace w ++ [c]).

(** A computation returns a value or raises, and leaves a world. *)
Inductive outcome (A : Type) :=
| Return (a : A)
| Raise (e : exn).
Arguments Return {A} a.
Arguments Raise {A} e.

Definition py (A : Type) := world -> outcome A * world.

Definition ret {A} (a : A) : py A := fun w => (Return a, w).
Definition raise {A} (e : exn) : py A := fun w => (Raise e, w).
Definition bind {A B} (c : py A) (k : A -> py B) : py B :=
  fun w =>
    match c w with
    | (Return a, w') => k a w'
    | (Raise e, w') => (Raise e, w')
    end.

Notation "x <- c ;; k" := (bind c (fun x => k))
  (at level 61, c at next level, right associativity).
Notation "c ;; k" := (bind c (fun _ => k))
  (at level 61, right associativity).

Inductive connection := Conn.
Inductive cursor := Cur.
Inductive file := File.

(** [sqlite3.connect(DB_PATH)].  A missing file is created, empty, when it
    can be; a file that is not a database is only found out by the first
    statement. *)
Definition sqlite3_connect (path : string) : py connection :=
  fun w =>
    let w := log CConnect w in
    match db w with
    | Absent true => (Return Conn, set_connections (S (connections w)) (set_db (Database []) w))
    | Absent false => (Raise (OperationalError "unable to open database file"), w)
    | Unopenable => (Raise (OperationalError "unable to open database file"), w)
    | NotADatabase => (Return Conn, set_connections (S (connections w)) w)
    | Database _ => (Return Conn, set_connections (S (connections w)) w)
    end.

(** [conn.cursor()]: a cursor with no result yet; nothing is recorded in
    [trace]. *)
Definition conn_cursor (c : connection) : py cursor :=
  fun w => (Return Cur, set_result_set None w).

(** [cursor.execute(sql)], on a database nobody else has locked. *)
Definition cursor_execute (c : cursor) (sql : statement) : py unit :=
  fun w =>
    let w := log CExecute w in
    match sql, db w with
    | SelectAllFrom name, Database ts =>
        match find_table name ts with
        | Some t =>
            (Return tt, set_result_set (Some (map mkDescription (t_columns t), t_rows t)) w)
        | None => (Raise (OperationalError ("no such table: " ++ name)), w)
        end
    | _, NotADatabase => (Raise (DatabaseError "file is not a database"), w)
    | _, _ => (Raise (OperationalError "unable to open database file"), w)
    end.

(** [cursor.fetchall()]: the pending rows, which are then consumed.  The
    TEXT of the rows is taken to be valid UTF-8, so that decoding it to
    str does not fail. *)
Definition cursor_fetchall (c : cursor) : py (list row) :=
  fun w =>
    let w := log CFetchall w in
    match result_set w with
    | Some (d, rows) => (Return rows, set_result_set (Some (d, [])) w)
    | None => (Return [], w)
    end.

(** [cursor.description]: None until a statement has been executed. *)
Definition cursor_description (c : cursor) : py (option (list description)) :=
  fun w =>
    match result_set w with
    | Some (d, _) => (Return (Some d), w)
    | None => (Return None, w)
    end.

(** [[desc[0] for desc in d]] *)
Definition names_of (d : option (list description)) : py (list str) :=
  match d with
  | Some l => ret (map d_name l)
  | None => raise (TypeError "'NoneType' object is not iterable")
  end.

(** [open(OUT_PATH, "w")]: the file is created or truncated at once. *)
Definition open_w (path : string) : py file :=
  fun w =>
    let w := log COpen w in
    if out_openable w
    then (Return File, set_handles (S (handles w)) (set_out (Some []) w))
    else (Raise OSError, w).

(** [f.write(s)].  The file object buffers, and the buffer reaches the disk
    at the latest when the object is closed; as every path out of the
    [with] block closes it, the text is appended here directly. *)
Definition file_write (f : file) (s : text) : py unit :=
  fun w =>
    (Return tt, set_out (Some (match out w with Some t => t ++ s | None => s end)) w).

(** [f.close()], as the with block calls it: the disk takes what is left
    in the buffer. *)
Definition file_close (f : file) : py unit :=
  fun w => (Return tt, set_handles (pred (handles w)) (log CCloseFile w)).

(** [conn.close()] *)
Definition conn_close (c : connection) : py unit :=
  fun w => (Return tt, set_connections (pred (connections w)) (log CCloseConn w)).

(** [with open(path, "w") as f: body]: the file is closed when the block is
    left, normally or by an exception, which then goes on. *)
Definition with_open {A} (path : string) (body : file -> py A) : py A :=
  fun w =>
    match open_w path w with
    | (Raise e, w1) => (Raise e, w1)
    | (Return f, w1) =>
        let (r, w2) := body f w1 in
        (r, snd (file_close f w2))
    end.

(** [for x in l: body] *)
Fixpoint for_each {A} (l : list A) (body : A -> py unit) : py unit :=
  match l with
  | [] => ret tt
  | x :: l' => body x ;; for_each l' body
  end.

(** [for chunk in iterable: fp.write(chunk)] *)
Fixpoint write_chunks (g : chunks) (fp : file) : py unit :=
  match g with
  | Done => ret tt
  | Yield c g' => file_write fp c ;; write_chunks g' fp
  | Throw => raise (TypeError "Object of type bytes is not JSON serializable")
  end.

(** [json.dump(obj, fp)] *)
Definition json_dump (obj : dict) (fp : file) : py unit :=
  write_chunks (iterencode_dict obj) fp.

(** The script's function. *)
Definition export_logs : py unit :=
  conn <- sqlite3_connect DB_PATH ;;
  cursor <- conn_cursor conn ;;
  cursor_execute cursor (SelectAllFrom "smtp_sessions") ;;
  rows <- cursor_fetchall cursor ;;
  description <- cursor_description cursor ;;
  columns <- names_of description ;;
  with_open OUT_PATH (fun f =>
    for_each rows (fun row =>
      let log_entry := dict_of (zip columns row) in
      json_dump log_entry f ;;
      file_write f [LF])) ;;
  conn_close conn.

End Host.

(* ------------------------------------------------------------------ *)
(** ** Vocabulary of the properties *)

Import Py Json Host RFC8259.

(** What [json.dump] has written for a dict when it ends, normally or not. *)
Definition dumps (d : dict) : text := joined (iterencode_dict d).

(** Line 18: the mapping built for a row. *)
Definition log_entry (columns : list str) (r : row) : dict := dict_of (zip columns r).

(** A row goes through when the encoder reaches the end of its mapping. *)
Definition goes_through (columns : list str) (r : row) : bool :=
  completes (iterencode_dict (log_entry columns r)).

(** What the loop of lines 17 to 20 writes for the rows, and whether it
    reaches its end: it stops in the first row that does not go through,
    after the chunks already yielded for it. *)
Fixpoint written (columns : list str) (rows : list row) : text * bool :=
  match rows with
  | [] => ([], true)
  | r :: rows' =>
      if goes_through columns r then
        let (t, ok) := written columns rows' in
        (dumps (log_entry columns r) ++ LF :: t, ok)
      else (dumps (log_entry columns r), false)
  end.

Definition content (w : world) : text :=
  match out w with Some t => t | None => [] end.

Definition append_out (s : text) (w : world) : world :=
  set_out (Some (content w ++ s)) w.

(** The lines of a text: a line ends at a line feed, and a last piece
    without one counts as a line. *)
Fixpoint split_lines (s : text) : list text :=
  match s with
  | [] => []
  | c :: s' =>
      if Ascii.eqb c LF then [] :: split_lines s'
      else match split_lines s' with
           | [] => [[c]]
           | l :: ls => (c :: l) :: ls
           end
  end.

(** The table the script reads, resolved in the database at [DB_PATH]. *)
Definition source_table (w : world) : option table :=
  match db w with
  | Database ts => find_table "smtp_sessions" ts
  | _ => None
  end.

(** The store as SQLite keeps it: column names are distinct and every row
    has one value per column. *)
Definition well_formed (t : table) : Prop :=
  NoDup (t_columns t) /\
  Forall (fun r : row => List.length r = List.length (t_columns t)) (t_rows t).

(** Unicode scalar values: the code points of a str decoded from UTF-8. *)
Definition scalar (c : N) : bool :=
  ((c <? 55296) || ((57343 <? c) && (c <? 1114112)))%N.

Definition scalar_value (v : value) : bool :=
  match v with
  | VStr s => forallb scalar s
  | _ => true
  end.

Definition finite_value (v : value) : bool :=
  match v with
  | VFloat (Finite _) => true
  | VFloat _ => false
  | _ => true
  end.

(** The UTF-16 code units of a code point. *)
Definition utf16 (c : N) : list N :=
  if (c <? 65536)%N then [c]
  else [55296 + ((c - 65536) / 1024) mod 1024; 56320 + (c - 65536) mod 1024]%N.

(** A str as a strict decoder reads it back from its escaped form. *)
Definition reread (s : str) : list N := RFC8259.join_surrogates (flat_map utf16 s).

(** The type mapping of the output format: text to string, integer and
    real to number, null to null.  A blob and a real that is not finite
    have no image. *)
Definition type_mapping (v : value) : option RFC8259.json :=
  match v with
  | VStr s => Some (RFC8259.JString s)
  | VInt z => Some (RFC8259.JNumber (mkNumber (z <? 0)%Z (Z.abs_N z) Nil None))
  | VFloat (Finite n) => Some (RFC8259.JNumber n)
  | VNone => Some RFC8259.JNull
  | _ => None
  end.

(** The same with every str as the decoder reads it back. *)
Definition read_back (v : value) : option RFC8259.json :=
  match v with
  | VStr s => Some (RFC8259.JString (reread s))
  | _ => type_mapping v
  end.

Fixpoint members_with (key : str -> list N) (val : value -> option RFC8259.json)
    (d : dict) : option (list (list N * RFC8259.json)) :=
  match d with
  | [] => Some []
  | (k, v) :: d' =>
      match val v, members_with key val d' with
      | Some j, Some m => Some ((key k, j) :: m)
      | _, _ => None
      end
  end.

(** The JSON object that corresponds to a mapping under the type mapping. *)
Definition object_of (d : dict) : option RFC8259.json :=
  option_map RFC8259.JObject (members_with (fun k => k) type_mapping d).

(** A world in which nothing has run yet. *)
Definition fresh (d : db_file) (o : option text) (openable : bool) : world :=
  mkWorld d o openable 0 0 None [].

(** How the loop ends: normally, or with the TypeError of the encoder. *)
Definition type_error : exn := TypeError "Object of type bytes is not JSON serializable".

(** The outcome of the loop. *)
Definition ended (ok : bool) : outcome unit :=
  if ok then Return tt else Raise type_error.

(** A range of numbers, for checks by enumeration. *)
Definition below (k : nat) : list N := map N.of_nat (seq 0 k).

(** The line of a row: what [json.dump] writes for its mapping. *)
Definition line_of (columns : list str) (r : row) : text := dumps (log_entry columns r).

(** The characters from space to tilde. *)
Definition printable (c : ascii) : bool :=
  ((32 <=? N_of_ascii c) && (N_of_ascii c <=? 126))%N.

(** Whether what is at [DB_PATH] is an SQLite database. *)
Definition is_database (d : db_file) : bool :=
  match d with Database _ => true | _ => false end.

(** The members of an object as text, in list order: key, colon, value,
    with a comma between two members. *)
Fixpoint members_text (fields : list (text * text)) : text :=
  match fields with
  | [] => []
  | (k, v) :: rest =>
      k ++ [":"; " "] ++ v
        ++ match rest with [] => [] | _ => [","; " "] ++ members_text rest end
  end.

(** The text of a value that the encoder accepts. *)
Definition value_text (v : value) : text :=
  match encode_value v with Some t => t | None => [] end.

(** The key and the value of every item, as text. *)
Definition fields_of (d : dict) : list (text * text) :=
  map (fun kv => (encode_basestring_ascii (fst kv), value_text (snd kv))) d.

(** A member that another member follows. *)
Definition member_comma (kv : str * value) : text :=
  encode_basestring_ascii (fst kv) ++ [":"; " "] ++ value_text (snd kv) ++ [","; " "].

(** What may follow a value inside an object: a comma, the closing brace,
    or the end of the text. *)
Definition closes (r : text) : bool :=
  match r with
  | [] => true
  | c :: _ => Ascii.eqb c "," || Ascii.eqb c "}"
  end.

(** A text that does not start with a digit. *)
Definition no_digit (r : text) : Prop :=
  match r with
  | [] => True
  | c :: _ => digit_of c = None
  end.

(** The exponent part and the fraction part of a literal, as text. *)
Definition exp_part (e : option Z) : text :=
  match e with None => [] | Some z => exp_text z end.

Definition frac_part (f : uint) : text :=
  match f with Nil => [] | d => "." :: uint_text d end.

(** The result of [parse_number] as a JSON value. *)
Definition numbered (r : option (number * text)) : option (json * text) :=
  match r with
  | Some (n, r') => Some (JNumber n, r')
  | None => None
  end.

(** Lines 24 and 25: [if __name__ == "__main__": export_logs()].  Run as a
    script, the interpreter exits with status 0 when the call returns and,
    after printing the traceback, with status 1 when an exception leaves
    it. *)
Definition main : world -> Z * world :=
  fun w =>
    match export_logs w with
    | (Return _, w') => (0%Z, w')
    | (Raise _, w') => (1%Z, w')
    end.

(** [d.get(k)]: the value stored under a key, if any. *)
Definition dict_get (d : dict) (k : str) : option value :=
  match find (fun kv => str_eqb (fst kv) k) d with
  | Some kv => Some (snd kv)
  | None => None
  end.

(** The last pair of a list of pairs that has a given key. *)
Definition last_with (pairs : list (str * value)) (k : str) : option value :=
  match find (fun kv => str_eqb (fst kv) k) (List.rev pairs) with
  | Some kv => Some (snd kv)
  | None => None
  end.

(** The literals [float.__repr__] really prints have a point or an
    exponent, which tells them from an int. *)
Definition float_shaped (v : value) : bool :=
  match v with
  | VFloat (Finite n) =>
      negb (is_nil (n_frac n)) || match n_exp n with Some _ => true | None => false end
  | _ => true
  end.

(** A value that the export writes and a strict decoder reads back. *)
Definition plain (v : value) : bool :=
  serializable v && finite_value v && scalar_value v && float_shaped v.

(** A character of the output file: printable, or the line feed. *)
Definition file_char (c : ascii) : bool := printable c || Ascii.eqb c LF.

(* ------------------------------------------------------------------ *)
(** ** Example stores *)

(** The scenario of the specification: two sessions. *)
Definition sessions : table :=
  mkTable
    [str_of "id"; str_of "timestamp"; str_of "src_ip"; str_of "command"]
    [[VInt 1; VStr (str_of "2024-01-01T00:00:00Z"); VStr (str_of "10.0.0.5");
      VStr (str_of "HELO test")];
     [VInt 2; VStr (str_of "2024-01-01T00:05:00Z"); VStr (str_of "10.0.0.6");
      VStr (str_of "MAIL FROM:<a@b.com>")]].

(** A database whose only table is smtp_sessions. *)
Definition store_of (t : table) : db_file := Database [("smtp_sessions"%string, t)].

(** A destination file left by an earlier run. *)
Definition stale : option text := Some (lit "stale").


(** Two sessions, the second with a payload kept as a BLOB. *)
Definition with_blob : table :=
  mkTable [str_of "id"; str_of "payload"]
          [[VInt 1; VStr (str_of "HELO test")];
           [VInt 2; VBytes []];
           [VInt 3; VNone]].

(** An infinite REAL in the second column. *)
Definition with_infinity : table :=
  mkTable [str_of "id"; str_of "score"] [[VInt 1; VFloat PosInf]].

(** The same with minus infinity. *)
Definition with_minus_infinity : table :=
  mkTable [str_of "id"; str_of "score"] [[VInt 1; VFloat NegInf]].

(** The sessions table after a third session has been recorded. *)
Definition sessions_later : table :=
  mkTable (t_columns sessions)
          (t_rows sessions
           ++ [[VInt 3; VStr (str_of "2024-01-01T00:09:00Z"); VStr (str_of "10.0.0.7");
                VStr (str_of "QUIT")]]).



(* ------------------------------------------------------------------ *)
(** ** The run of [export_logs] *)

Arguments find_table : simpl never.
Arguments bind : simpl never.

Lemma bind_run {A B} (c : py A) (k : A -> py B) w :
  bind c k w =
  match c w with
  | (Return a, w') => k a w'
  | (Raise e, w') => (Raise e, w')
  end.
Proof. reflexivity. Qed.

Lemma set_out_content w t : out w = Some t -> append_out [] w = w.
Proof.
  destruct w as [d o op c h r tr]; simpl; intros ->.
  unfold append_out, content, set_out; simpl. now rewrite List.app_nil_r.
Qed.

Lemma append_out_app a b w : append_out b (append_out a w) = append_out (a ++ b) w.
Proof.
  unfold append_out, content, set_out; simpl. now rewrite List.app_assoc.
Qed.

Lemma out_append_out s w : out (append_out s w) = Some (content w ++ s).
Proof. reflexivity. Qed.

Lemma write_chunks_run g : forall w t,
  out w = Some t ->
  write_chunks g File w = (ended (completes g), append_out (joined g) w).
Proof.
  induction g as [|c g IH|]; intros w t Hw; simpl.
  - unfold ret. now rewrite (set_out_content w t).
  - unfold bind, file_write. rewrite Hw.
    rewrite (IH _ (t ++ c)) by reflexivity.
    f_equal. unfold append_out, content, set_out; simpl. rewrite Hw.
    now rewrite List.app_assoc.
  - unfold raise. now rewrite (set_out_content w t).
Qed.

Lemma json_dump_run d w t :
  out w = Some t ->
  json_dump d File w = (ended (completes (iterencode_dict d)), append_out (dumps d) w).
Proof. intros H. unfold json_dump, dumps. now apply write_chunks_run with t. Qed.

Lemma loop_run columns rows : forall w t,
  out w = Some t ->
  for_each rows (fun row =>
      json_dump (dict_of (zip columns row)) File ;; file_write File [LF]) w
  = (ended (snd (written columns rows)), append_out (fst (written columns rows)) w).
Proof.
  induction rows as [|r rows IH]; intros w t Hw; simpl.
  - unfold ret. now rewrite (set_out_content w t).
  - unfold bind at 1. unfold bind at 1.
    rewrite (json_dump_run _ w t Hw).
    fold (log_entry columns r). unfold goes_through.
    destruct (completes (iterencode_dict (log_entry columns r))) eqn:Hc; simpl.
    + erewrite IH by reflexivity.
      destruct (written columns rows) as [txt ok]; simpl.
      f_equal. unfold append_out, content, set_out; simpl. rewrite Hw. simpl.
      now rewrite <- !List.app_assoc.
    + reflexivity.
Qed.

Lemma names_of_description cols : map d_name (map mkDescription cols) = cols.
Proof. induction cols as [|c cols IH]; simpl; congruence. Qed.

(** The run on a store that has the table and an output path that opens. *)
Lemma export_logs_table w ts t :
  db w = Database ts ->
  find_table "smtp_sessions" ts = Some t ->
  out_openable w = true ->
  let txt := fst (written (t_columns t) (t_rows t)) in
  let ok := snd (written (t_columns t) (t_rows t)) in
  exists w',
    export_logs w = (ended ok, w') /\
    out w' = Some txt /\
    db w' = db w /\
    out_openable w' = out_openable w /\
    handles w' = handles w /\
    connections w' = (if ok then connections w else S (connections w)) /\
    trace w' = trace w ++ [CConnect; CExecute; CFetchall; COpen; CCloseFile]
                       ++ (if ok then [CCloseConn] else []).
Proof.
  intros Hdb Ht Hop txt ok.
  destruct w as [d o op c h r tr]; simpl in Hdb, Hop; subst d op.
  unfold export_logs.
  do 6 (rewrite bind_run; simpl; try rewrite Ht; simpl).
  rewrite bind_run. unfold with_open. simpl.
  rewrite names_of_description.
  erewrite loop_run by reflexivity.
  fold txt ok. destruct ok; simpl.
  - eexists; split; [reflexivity|]. simpl.
    repeat split; try reflexivity.
    now rewrite <- !List.app_assoc.
  - eexists; split; [reflexivity|]. simpl.
    repeat split; try reflexivity.
    now rewrite <- !List.app_assoc.
Qed.

(** The runs that end before the output file is opened. *)
Lemma export_logs_unopenable w :
  db w = Absent false \/ db w = Unopenable ->
  export_logs w
  = (Raise (OperationalError "unable to open database file"), log CConnect w).
Proof.
  intros H. destruct w as [d o op c h r tr]; simpl in H.
  unfold export_logs. rewrite bind_run. simpl.
  destruct H as [-> | ->]; reflexivity.
Qed.

Lemma export_logs_created w :
  db w = Absent true ->
  exists w',
    export_logs w = (Raise (OperationalError "no such table: smtp_sessions"), w') /\
    db w' = Database [] /\ out w' = out w /\ out_openable w' = out_openable w /\
    handles w' = handles w /\ connections w' = S (connections w) /\
    trace w' = trace w ++ [CConnect; CExecute].
Proof.
  intros H. destruct w as [d o op c h r tr]; simpl in H; subst d.
  unfold export_logs. do 3 (rewrite bind_run; simpl).
  eexists; split; [reflexivity|]. simpl.
  repeat split; try reflexivity. now rewrite <- List.app_assoc.
Qed.

Lemma export_logs_not_a_database w :
  db w = NotADatabase ->
  exists w',
    export_logs w = (Raise (DatabaseError "file is not a database"), w') /\
    db w' = db w /\ out w' = out w /\ out_openable w' = out_openable w /\
    handles w' = handles w /\ connections w' = S (connections w) /\
    trace w' = trace w ++ [CConnect; CExecute].
Proof.
  intros H. destruct w as [d o op c h r tr]; simpl in H; subst d.
  unfold export_logs. do 3 (rewrite bind_run; simpl).
  eexists; split; [reflexivity|]. simpl.
  repeat split; try reflexivity. now rewrite <- List.app_assoc.
Qed.

Lemma export_logs_no_table w ts :
  db w = Database ts ->
  find_table "smtp_sessions" ts = None ->
  exists w',
    export_logs w = (Raise (OperationalError "no such table: smtp_sessions"), w') /\
    db w' = db w /\ out w' = out w /\ out_openable w' = out_openable w /\
    handles w' = handles w /\ connections w' = S (connections w) /\
    trace w' = trace w ++ [CConnect; CExecute].
Proof.
  intros H Ht. destruct w as [d o op c h r tr]; simpl in H; subst d.
  unfold export_logs. do 3 (rewrite bind_run; simpl; try rewrite Ht).
  eexists; split; [reflexivity|]. simpl.
  repeat split; try reflexivity. now rewrite <- List.app_assoc.
Qed.

(** The run that fails to open the output file. *)
Lemma export_logs_unwritable w ts t :
  db w = Database ts ->
  find_table "smtp_sessions" ts = Some t ->
  out_openable w = false ->
  exists w',
    export_logs w = (Raise OSError, w') /\
    db w' = db w /\ out w' = out w /\ out_openable w' = out_openable w /\
    handles w' = handles w /\ connections w' = S (connections w) /\
    trace w' = trace w ++ [CConnect; CExecute; CFetchall; COpen].
Proof.
  intros H Ht Hop. destruct w as [d o op c h r tr]; simpl in H, Hop; subst d op.
  unfold export_logs.
  do 6 (rewrite bind_run; simpl; try rewrite Ht; simpl).
  rewrite bind_run. unfold with_open. simpl.
  eexists; split; [reflexivity|]. simpl.
  repeat split; try reflexivity. now rewrite <- !List.app_assoc.
Qed.

(** A run that returns has read the table and written all of it. *)
Lemma export_logs_returns w w' :
  export_logs w = (Return tt, w') ->
  exists ts t,
    db w = Database ts /\ find_table "smtp_sessions" ts = Some t /\
    out_openable w = true /\
    snd (written (t_columns t) (t_rows t)) = true /\
    out w' = Some (fst (written (t_columns t) (t_rows t))) /\
    db w' = db w /\ out_openable w' = out_openable w /\
    handles w' = handles w /\ connections w' = connections w.
Proof.
  intros Hrun.
  destruct (db w) as [[|]| | |ts] eqn:Hdb.
  - destruct (export_logs_created w Hdb) as (w1 & H1 & _). congruence.
  - rewrite export_logs_unopenable in Hrun by auto. discriminate.
  - rewrite export_logs_unopenable in Hrun by auto. discriminate.
  - destruct (export_logs_not_a_database w Hdb) as (w1 & H1 & _). congruence.
  - destruct (find_table "smtp_sessions" ts) as [t|] eqn:Ht.
    + destruct (out_openable w) eqn:Hop.
      * destruct (export_logs_table w ts t Hdb Ht Hop)
          as (w1 & H1 & Hout & Hd & Ho & Hh & Hc & _).
        rewrite H1 in Hrun.
        destruct (snd (written (t_columns t) (t_rows t))) eqn:Hok;
          [|discriminate].
        injection Hrun as <-.
        exists ts, t. rewrite Hdb in Hd. rewrite Hop in Ho. repeat split; auto.
      * destruct (export_logs_unwritable w ts t Hdb Ht Hop) as (w1 & H1 & _).
        congruence.
    + destruct (export_logs_no_table w ts Hdb Ht) as (w1 & H1 & _). congruence.
Qed.

(* ------------------------------------------------------------------ *)
(** ** What the loop writes *)

Lemma written_all columns rows :
  forallb (goes_through columns) rows = true ->
  written columns rows
  = (flat_map (fun r => line_of columns r ++ [LF]) rows, true).
Proof.
  induction rows as [|r rows IH]; simpl; intros H; [reflexivity|].
  apply andb_prop in H as [Hr Hrows]. rewrite Hr, (IH Hrows).
  unfold line_of. now rewrite <- List.app_assoc.
Qed.

Lemma written_ok columns rows :
  snd (written columns rows) = true -> forallb (goes_through columns) rows = true.
Proof.
  induction rows as [|r rows IH]; simpl; [reflexivity|].
  destruct (goes_through columns r); simpl; [|discriminate].
  destruct (written columns rows) as [t ok]; simpl in *. exact IH.
Qed.

Lemma written_stops columns pre bad post :
  forallb (goes_through columns) pre = true ->
  goes_through columns bad = false ->
  written columns (pre ++ bad :: post)
  = (flat_map (fun r => line_of columns r ++ [LF]) pre ++ line_of columns bad, false).
Proof.
  induction pre as [|r pre IH]; simpl; intros Hpre Hbad.
  - now rewrite Hbad.
  - apply andb_prop in Hpre as [Hr Hpre]. rewrite Hr, (IH Hpre Hbad).
    unfold line_of. now rewrite <- !List.app_assoc.
Qed.

(** *** Lines *)

Lemma split_lines_line l s :
  ~ In LF l -> split_lines (l ++ LF :: s) = l :: split_lines s.
Proof.
  induction l as [|c l IH]; simpl; intros Hl.
  - reflexivity.
  - destruct (Ascii.eqb c LF) eqn:E.
    + apply Ascii.eqb_eq in E. tauto.
    + rewrite IH by tauto. reflexivity.
Qed.

Lemma split_lines_all ls :
  Forall (fun l => ~ In LF l) ls ->
  split_lines (flat_map (fun l => l ++ [LF]) ls) = ls.
Proof.
  induction 1 as [|l ls Hl _ IH]; simpl; [reflexivity|].
  rewrite <- List.app_assoc. simpl. rewrite split_lines_line by assumption.
  now rewrite IH.
Qed.

Lemma split_lines_piece l :
  ~ In LF l -> l <> [] -> split_lines l = [l].
Proof.
  induction l as [|c l IH]; simpl; intros Hl Hne; [congruence|].
  destruct (Ascii.eqb c LF) eqn:E.
  - apply Ascii.eqb_eq in E. tauto.
  - destruct l as [|c' l]; [reflexivity|].
    rewrite IH; [reflexivity|tauto|discriminate].
Qed.

(** *** Every character the encoder writes is printable ASCII *)

Lemma below_spec (P : N -> bool) k :
  forallb P (below k) = true -> forall n, (n < N.of_nat k)%N -> P n = true.
Proof.
  intros H n Hn. rewrite forallb_forall in H. apply H.
  unfold below. apply in_map_iff. exists (N.to_nat n). split.
  - apply N2Nat.id.
  - apply in_seq. lia.
Qed.

Lemma printable_hexdigit n : (n < 16)%N -> printable (hexdigit n) = true.
Proof. apply (below_spec (fun n => printable (hexdigit n)) 16). reflexivity. Qed.

Lemma printable_hex4 n : forallb printable (hex4 n) = true.
Proof.
  unfold hex4. simpl.
  rewrite !printable_hexdigit; [reflexivity| | | |]; apply N.mod_lt; discriminate.
Qed.

Lemma printable_ascii_of_N c :
  (32 <= c)%N -> (c <= 126)%N -> printable (ascii_of_N c) = true.
Proof.
  intros H1 H2. unfold printable. rewrite N_ascii_embedding by lia.
  apply andb_true_intro. split; apply N.leb_le; assumption.
Qed.

Lemma printable_u_escape n : forallb printable (u_escape n) = true.
Proof.
  unfold u_escape. cbn [forallb]. now rewrite printable_hex4.
Qed.

Lemma printable_escape_char c : forallb printable (escape_char c) = true.
Proof.
  unfold escape_char.
  repeat match goal with
         | |- context [if (c =? ?k)%N then _ else _] =>
             destruct (c =? k)%N; [reflexivity|]
         end.
  destruct ((32 <=? c) && (c <=? 126))%N eqn:E.
  - apply andb_prop in E as [E1 E2].
    apply N.leb_le in E1. apply N.leb_le in E2.
    cbn [forallb]. now rewrite printable_ascii_of_N.
  - destruct (c <? 65536)%N.
    + apply printable_u_escape.
    + cbv zeta. now rewrite forallb_app, !printable_u_escape.
Qed.

Lemma printable_string s : forallb printable (encode_basestring_ascii s) = true.
Proof.
  unfold encode_basestring_ascii. simpl. rewrite forallb_app. simpl.
  rewrite andb_true_r.
  induction s as [|c s IH]; simpl; [reflexivity|].
  rewrite forallb_app, printable_escape_char. exact IH.
Qed.

Lemma printable_uint d : forallb printable (uint_text d) = true.
Proof. induction d; simpl; auto. Qed.

Lemma printable_intstr z : forallb printable (intstr z) = true.
Proof.
  unfold intstr, N_text. destruct (z <? 0)%Z; simpl; apply printable_uint.
Qed.

Lemma printable_float_repr n : forallb printable (float_repr n) = true.
Proof.
  unfold float_repr, exp_text, N_text. rewrite !forallb_app.
  rewrite printable_uint.
  assert (forallb printable (if n_neg n then ["-"] else []) = true) as ->
    by now destruct (n_neg n).
  assert (forallb printable
            match n_frac n with Nil => [] | _ => "." :: uint_text (n_frac n) end
          = true) as H.
  { destruct (n_frac n) eqn:E; try reflexivity;
      rewrite <- E; simpl; apply printable_uint. }
  destruct (n_exp n) as [e|].
  - destruct (n_frac n), (e <? 0)%Z, (Z.abs_N e <? 10)%N; simpl in *;
      rewrite ?printable_uint in *; auto.
  - destruct (n_frac n); simpl in *; rewrite ?printable_uint in *; auto.
Qed.

Lemma printable_value v t : encode_value v = Some t -> forallb printable t = true.
Proof.
  destruct v as [|z|f|s|b]; simpl; intros H; inversion H; subst; clear H.
  - reflexivity.
  - apply printable_intstr.
  - destruct f; try reflexivity. apply printable_float_repr.
  - apply printable_string.
Qed.

Lemma printable_items first d : forallb printable (joined (iterencode_items first d)) = true.
Proof.
  revert first. induction d as [|[k v] d IH]; intros first.
  - reflexivity.
  - assert (forallb printable
              (joined
                 (Yield (encode_basestring_ascii k)
                    (Yield [":"; " "]
                       match encode_value v with
                       | Some t => Yield t (iterencode_items false d)
                       | None => Throw
                       end))) = true) as H.
    { cbn [joined]. rewrite !forallb_app, printable_string.
      destruct (encode_value v) as [t|] eqn:E; cbn [joined]; [|reflexivity].
      rewrite forallb_app, (printable_value v t E), IH. reflexivity. }
    cbn [iterencode_items]. destruct first; [exact H|].
    cbn [joined] in *. rewrite forallb_app. cbn [joined] in H. now rewrite H.
Qed.

Lemma printable_dumps d : forallb printable (dumps d) = true.
Proof.
  unfold dumps, iterencode_dict. destruct d as [|kv d]; [reflexivity|].
  cbn [joined]. rewrite forallb_app. now rewrite printable_items.
Qed.

Lemma dumps_no_LF d : ~ In LF (dumps d).
Proof.
  intros H. pose proof (printable_dumps d) as P.
  rewrite forallb_forall in P. specialize (P LF H). discriminate.
Qed.

Lemma dumps_not_empty d : dumps d <> [].
Proof. unfold dumps, iterencode_dict. destruct d; discriminate. Qed.

(* ------------------------------------------------------------------ *)
(** ** The mapping of line 18 *)

Lemma str_eqb_eq a b : str_eqb a b = true <-> a = b.
Proof.
  revert b. induction a as [|x a IH]; intros [|y b]; simpl; split;
    try congruence; try discriminate.
  - intros H. apply andb_prop in H as [H1 H2].
    apply N.eqb_eq in H1. apply IH in H2. congruence.
  - intros H. injection H as -> ->. rewrite N.eqb_refl. now apply IH.
Qed.

Lemma setitem_fresh d k v : ~ In k (keys d) -> setitem d k v = d ++ [(k, v)].
Proof.
  induction d as [|[k' v'] d IH]; simpl; intros H; [reflexivity|].
  destruct (str_eqb k' k) eqn:E.
  - apply str_eqb_eq in E. tauto.
  - rewrite IH by tauto. reflexivity.
Qed.

Lemma fold_setitem_distinct pairs : forall d,
  NoDup (map fst pairs) ->
  (forall k, In k (map fst pairs) -> ~ In k (keys d)) ->
  fold_left (fun d kv => setitem d (fst kv) (snd kv)) pairs d = d ++ pairs.
Proof.
  induction pairs as [|[k v] pairs IH]; simpl; intros d Hnd Hfresh.
  - now rewrite List.app_nil_r.
  - inversion Hnd as [|? ? Hk Hnd']; subst.
    rewrite setitem_fresh by (apply Hfresh; now left).
    rewrite IH; [now rewrite <- List.app_assoc|assumption|].
    intros k' Hk' Hin. unfold keys in Hin. rewrite map_app in Hin.
    apply in_app_or in Hin as [Hin|Hin].
    + apply (Hfresh k'); [now right|exact Hin].
    + simpl in Hin. destruct Hin as [<-|[]]. contradiction.
Qed.

Lemma dict_of_distinct pairs : NoDup (map fst pairs) -> dict_of pairs = pairs.
Proof.
  intros H. unfold dict_of. rewrite fold_setitem_distinct; auto.
Qed.

Lemma keys_zip (cols : list str) (r : row) :
  map fst (zip cols r) = firstn (List.length r) cols.
Proof.
  revert r. induction cols as [|c cols IH]; intros [|v r]; simpl; try reflexivity.
  now rewrite IH.
Qed.

Lemma values_zip (cols : list str) (r : row) :
  map snd (zip cols r) = firstn (List.length cols) r.
Proof.
  revert r. induction cols as [|c cols IH]; intros [|v r]; simpl; try reflexivity.
  now rewrite IH.
Qed.

Lemma NoDup_firstn_str n (l : list str) : NoDup l -> NoDup (firstn n l).
Proof.
  revert n. induction l as [|x l IH]; intros [|n] H; simpl; try constructor.
  - inversion H; subst. intros Hin.
    assert (In x l); [|contradiction].
    rewrite <- (firstn_skipn n l). apply in_or_app. now left.
  - inversion H; subst. now apply IH.
Qed.

Lemma log_entry_distinct cols r : NoDup cols -> log_entry cols r = zip cols r.
Proof.
  intros H. unfold log_entry. apply dict_of_distinct.
  rewrite keys_zip. now apply NoDup_firstn_str.
Qed.

Lemma log_entry_well_formed cols r :
  NoDup cols -> List.length r = List.length cols ->
  keys (log_entry cols r) = cols /\ values (log_entry cols r) = r.
Proof.
  intros Hnd Hlen. rewrite log_entry_distinct by assumption.
  unfold keys, values. rewrite keys_zip, values_zip. split.
  - rewrite Hlen. apply firstn_all.
  - rewrite <- Hlen. apply firstn_all.
Qed.

(** The encoder reaches the end of a mapping exactly when it meets no
    bytes value. *)
Lemma completes_items first d :
  completes (iterencode_items first d) = forallb serializable (values d).
Proof.
  revert first. induction d as [|[k v] d IH]; intros first; [reflexivity|].
  cbn [iterencode_items values map forallb snd].
  assert (completes
            (Yield (encode_basestring_ascii k)
               (Yield [":"; " "]
                  match encode_value v with
                  | Some t => Yield t (iterencode_items false d)
                  | None => Throw
                  end)) = serializable v && forallb serializable (map snd d)) as H.
  { cbn [completes]. destruct v; cbn [encode_value serializable completes];
      try apply IH; reflexivity. }
  destruct first; [exact H|]. cbn [completes] in *. exact H.
Qed.

Lemma goes_through_serializable cols r :
  goes_through cols r = forallb serializable (values (log_entry cols r)).
Proof.
  unfold goes_through, iterencode_dict.
  destruct (log_entry cols r) as [|kv d] eqn:E; [reflexivity|].
  cbn [completes]. apply completes_items.
Qed.

(** The file object is always released, the connection only when the
    run returns or never connected. *)
Lemma export_logs_handles w o w' :
  export_logs w = (o, w') -> handles w' = handles w.
Proof.
  intros Hrun.
  destruct (db w) as [[|]| | |ts] eqn:Hdb.
  - destruct (export_logs_created w Hdb) as (w1 & H1 & _ & _ & _ & H & _).
    congruence.
  - rewrite export_logs_unopenable in Hrun by auto. now inversion Hrun.
  - rewrite export_logs_unopenable in Hrun by auto. now inversion Hrun.
  - destruct (export_logs_not_a_database w Hdb) as (w1 & H1 & _ & _ & _ & H & _).
    congruence.
  - destruct (find_table "smtp_sessions" ts) as [t|] eqn:Ht.
    + destruct (out_openable w) eqn:Hop.
      * destruct (export_logs_table w ts t Hdb Ht Hop)
          as (w1 & H1 & _ & _ & _ & H & _). congruence.
      * destruct (export_logs_unwritable w ts t Hdb Ht Hop)
          as (w1 & H1 & _ & _ & _ & H & _). congruence.
    + destruct (export_logs_no_table w ts Hdb Ht) as (w1 & H1 & _ & _ & _ & H & _).
      congruence.
Qed.

(* ------------------------------------------------------------------ *)
(** ** Failures before the output file is touched *)

(** C7.  If the table smtp_sessions does not exist in the store, the run
    fails at the query, with sqlite3's OperationalError "no such table"
    (the SchemaError of the specification): connect and execute are the
    only calls made, so the destination file has not been opened, and its
    content is what it was. *)
Theorem C7_missing_table_fails_at_query w ts :
  db w = Database ts ->
  find_table "smtp_sessions" ts = None ->
  exists w',
    export_logs w = (Raise (OperationalError "no such table: smtp_sessions"), w') /\
    trace w' = trace w ++ [CConnect; CExecute] /\
    (~ In COpen (trace w) -> ~ In COpen (trace w')) /\
    out w' = out w.
Proof.
  intros Hdb Ht.
  destruct (export_logs_no_table w ts Hdb Ht) as (w' & Hrun & _ & Hout & _ & _ & _ & Htr).
  exists w'. split; [exact Hrun|]. split; [exact Htr|]. split; [|exact Hout].
  rewrite Htr. intros Hno Hin. apply in_app_or in Hin as [Hin|Hin]; [auto|].
  simpl in Hin. destruct Hin as [H|[H|[]]]; discriminate.
Qed.

Lemma C7_missing_table_witness :
  exists w',
    export_logs (fresh (Database [("mail_log"%string, sessions)]) stale true)
    = (Raise (OperationalError "no such table: smtp_sessions"), w') /\
    trace w' = [CConnect; CExecute] /\
    ~ In COpen (trace w') /\
    out w' = stale.
Proof.
  destruct (C7_missing_table_fails_at_query
              (fresh (Database [("mail_log"%string, sessions)]) stale true)
              [("mail_log"%string, sessions)] eq_refl eq_refl)
    as (w' & Hrun & Htr & Hopen & Hout).
  exists w'. split; [exact Hrun|]. split; [exact Htr|]. split; [|exact Hout].
  apply Hopen. simpl. tauto.
Defined.

(** C4, as the code has it.  When what is at the store path is not an
    SQLite database (nothing, something that cannot be opened, or a file
    that is not a database), the run fails and the destination file is
    left as it was, never opened.  The failure is at the connect stage,
    before any query, only when the file can be neither opened nor
    created.  A missing file that can be created is created as an empty
    store and the run fails at the query, for want of the table; a file
    that is not a database is found out by the query as well. *)
Theorem C4_no_store_leaves_destination w :
  is_database (db w) = false ->
  exists e w',
    export_logs w = (Raise e, w') /\
    out w' = out w /\
    (db w = Absent false \/ db w = Unopenable ->
       e = OperationalError "unable to open database file" /\
       trace w' = trace w ++ [CConnect] /\ db w' = db w) /\
    (db w = Absent true ->
       e = OperationalError "no such table: smtp_sessions" /\
       trace w' = trace w ++ [CConnect; CExecute] /\ db w' = Database []) /\
    (db w = NotADatabase ->
       e = DatabaseError "file is not a database" /\
       trace w' = trace w ++ [CConnect; CExecute] /\ db w' = db w).
Proof.
  intros H. destruct (db w) as [[|]| | |ts] eqn:Hdb; try discriminate.
  - destruct (export_logs_created w Hdb) as (w' & Hrun & Hd & Ho & _ & _ & _ & Htr).
    exists (OperationalError "no such table: smtp_sessions"), w'.
    repeat split; auto; intros; try discriminate.
    all: destruct H0; discriminate.
  - exists (OperationalError "unable to open database file"), (log CConnect w).
    rewrite export_logs_unopenable by auto.
    destruct w; simpl in *. repeat split; auto; intros; discriminate.
  - exists (OperationalError "unable to open database file"), (log CConnect w).
    rewrite export_logs_unopenable by auto.
    destruct w; simpl in *. repeat split; auto; intros; discriminate.
  - destruct (export_logs_not_a_database w Hdb) as (w' & Hrun & Hd & Ho & _ & _ & _ & Htr).
    exists (DatabaseError "file is not a database"), w'.
    repeat split; auto; intros; try discriminate; try congruence.
    all: destruct H0; discriminate.
Qed.

Lemma C4_no_store_witness :
  exists e w',
    export_logs (fresh Unopenable stale true) = (Raise e, w') /\
    out w' = stale /\
    e = OperationalError "unable to open database file" /\
    trace w' = [CConnect].
Proof.
  destruct (C4_no_store_leaves_destination (fresh Unopenable stale true) eq_refl)
    as (e & w' & Hrun & Hout & Hconn & _).
  exists e, w'. destruct Hconn as (He & Htr & _); [now right|]. auto.
Defined.

(** C4 as stated fails: with no file at the store path, in a directory
    where one can be created, connect succeeds and creates an empty
    store; the failure comes from the query. *)
Lemma C4_missing_store_reaches_query :
  exists w',
    export_logs (fresh (Absent true) stale true)
    = (Raise (OperationalError "no such table: smtp_sessions"), w') /\
    trace w' = [CConnect; CExecute] /\
    db w' = Database [] /\
    ~ (exists v, export_logs (fresh (Absent true) stale true)
                 = (Raise (OperationalError "unable to open database file"), v)).
Proof.
  eexists. split; [vm_compute; reflexivity|]. repeat split.
  intros [v Hv]. vm_compute in Hv. discriminate Hv.
Qed.

(* ------------------------------------------------------------------ *)
(** ** The empty table and the rerun *)

(** C8.  When the table is empty, the run opens the destination file,
    which creates or truncates it, writes nothing and returns: the file
    is there, of length zero, with no line. *)
Theorem C8_empty_table_empty_file w ts t :
  db w = Database ts ->
  find_table "smtp_sessions" ts = Some t ->
  t_rows t = [] ->
  out_openable w = true ->
  exists w',
    export_logs w = (Return tt, w') /\
    out w' = Some [] /\
    List.length (content w') = 0 /\
    split_lines (content w') = [] /\
    In COpen (trace w').
Proof.
  intros Hdb Ht Hrows Hop.
  destruct (export_logs_table w ts t Hdb Ht Hop) as (w' & Hrun & Hout & _ & _ & _ & _ & Htr).
  rewrite Hrows in *. simpl in *.
  exists w'. unfold content. rewrite Hout, Htr. repeat split; auto.
  apply in_or_app. right. simpl. auto.
Qed.

Lemma C8_empty_table_witness :
  exists w',
    export_logs (fresh (store_of (mkTable [str_of "id"] [])) stale true) = (Return tt, w') /\
    out w' = Some [] /\
    List.length (content w') = 0 /\
    split_lines (content w') = [] /\
    In COpen (trace w').
Proof.
  apply (C8_empty_table_empty_file
           (fresh (store_of (mkTable [str_of "id"] [])) stale true)
           [("smtp_sessions"%string, mkTable [str_of "id"] [])]
           (mkTable [str_of "id"] [])); reflexivity.
Defined.



(* ------------------------------------------------------------------ *)
(** ** Release of the resources *)

(** C9, at a store without the table.  The query raises; the file
    object was never acquired, and the connection that connect opened is
    still open when the error leaves [export_logs]: [conn.close()] is the
    last statement of the function and is not reached. *)
Theorem C9_connection_left_open :
  exists w',
    export_logs (fresh (Database []) stale true)
    = (Raise (OperationalError "no such table: smtp_sessions"), w') /\
    connections w' = 1 /\
    handles w' = 0 /\
    ~ In CCloseConn (trace w').
Proof.
  eexists. split; [vm_compute; reflexivity|]. simpl. repeat split.
  intros [H|[H|[]]]; discriminate.
Qed.

(* ------------------------------------------------------------------ *)
(** ** The text of a line *)

Lemma items_text d : forall first,
  forallb serializable (values d) = true ->
  joined (iterencode_items first d)
  = match d with [] => [] | _ => if first then [] else [","; " "] end
      ++ members_text (fields_of d) ++ ["}"].
Proof.
  induction d as [|[k v] d IH]; intros first Hs; [reflexivity|].
  cbn [values map forallb snd] in Hs. apply andb_prop in Hs as [Hv Hd].
  assert (joined
            (Yield (encode_basestring_ascii k)
               (Yield [":"; " "]
                  match encode_value v with
                  | Some t => Yield t (iterencode_items false d)
                  | None => Throw
                  end))
          = members_text (fields_of ((k, v) :: d)) ++ ["}"]) as H.
  { cbn [joined fields_of map members_text fst snd]. unfold value_text.
    destruct (encode_value v) as [t|] eqn:E; [|destruct v; discriminate].
    cbn [joined]. rewrite (IH false Hd).
    destruct d as [|kv d]; cbn [map]; rewrite <- ?List.app_assoc; reflexivity. }
  cbn [iterencode_items]. destruct first.
  - exact H.
  - cbn [joined] in *. now rewrite H.
Qed.

Lemma dumps_text d :
  forallb serializable (values d) = true ->
  dumps d = "{" :: members_text (fields_of d) ++ ["}"].
Proof.
  intros Hs. unfold dumps, iterencode_dict. destruct d as [|kv d]; [reflexivity|].
  cbn [joined]. now rewrite (items_text _ true Hs).
Qed.

Lemma items_fragment d1 k b d2 : forall first,
  forallb serializable (values d1) = true ->
  joined (iterencode_items first (d1 ++ (k, VBytes b) :: d2))
  = (if first then [] else [","; " "])
      ++ flat_map member_comma d1 ++ encode_basestring_ascii k ++ [":"; " "].
Proof.
  induction d1 as [|[k1 v1] d1 IH]; intros first Hs.
  - cbn [List.app iterencode_items encode_value flat_map].
    destruct first; cbn [joined]; rewrite ?List.app_nil_r; reflexivity.
  - cbn [values map forallb snd] in Hs. apply andb_prop in Hs as [Hv Hd].
    cbn [List.app iterencode_items flat_map].
    assert (joined
              (Yield (encode_basestring_ascii k1)
                 (Yield [":"; " "]
                    match encode_value v1 with
                    | Some t => Yield t (iterencode_items false (d1 ++ (k, VBytes b) :: d2))
                    | None => Throw
                    end))
            = member_comma (k1, v1) ++ flat_map member_comma d1
                ++ encode_basestring_ascii k ++ [":"; " "]) as H.
    { unfold member_comma, value_text. cbn [fst snd joined].
      destruct (encode_value v1) as [t|] eqn:E; [|destruct v1; discriminate].
      cbn [joined]. rewrite (IH false Hd). rewrite <- !List.app_assoc. reflexivity. }
    rewrite <- (List.app_assoc (member_comma (k1, v1))).
    destruct first.
    + exact H.
    + cbn [joined] in *. now rewrite H.
Qed.

Lemma dumps_fragment d1 k b d2 :
  forallb serializable (values d1) = true ->
  dumps (d1 ++ (k, VBytes b) :: d2)
  = "{" :: flat_map member_comma d1 ++ encode_basestring_ascii k ++ [":"; " "].
Proof.
  intros Hs. unfold dumps, iterencode_dict.
  destruct (d1 ++ (k, VBytes b) :: d2) as [|kv d] eqn:E.
  - destruct d1; discriminate.
  - rewrite <- E. cbn [joined]. now rewrite (items_fragment _ _ _ _ true Hs).
Qed.

(** The first value that is not serializable splits a mapping. *)
Lemma first_bytes (d : dict) :
  forallb serializable (values d) = false ->
  exists d1 k b d2,
    d = d1 ++ (k, VBytes b) :: d2 /\ forallb serializable (values d1) = true.
Proof.
  induction d as [|[k v] d IH]; [discriminate|].
  cbn [values map forallb snd]. intros H.
  destruct (serializable v) eqn:Ev.
  - cbn [andb] in H. destruct (IH H) as (d1 & k' & b & d2 & -> & Hs).
    exists ((k, v) :: d1), k', b, d2. split; [reflexivity|].
    cbn [values map forallb snd]. now rewrite Ev.
  - destruct v; try discriminate. exists [], k, b, d. now split.
Qed.

Lemma first_failing columns (rows : list row) :
  forallb (goes_through columns) rows = false ->
  exists pre bad post,
    rows = pre ++ bad :: post /\
    forallb (goes_through columns) pre = true /\
    goes_through columns bad = false.
Proof.
  induction rows as [|r rows IH]; [discriminate|].
  cbn [forallb]. intros H. destruct (goes_through columns r) eqn:Er.
  - cbn [andb] in H. destruct (IH H) as (pre & bad & post & -> & Hp & Hb).
    exists (r :: pre), bad, post. split; [reflexivity|].
    cbn [forallb]. now rewrite Er.
  - exists [], r, rows. now split.
Qed.

Lemma lines_written columns (rows : list row) :
  split_lines (flat_map (fun r => line_of columns r ++ [LF]) rows)
  = map (line_of columns) rows.
Proof.
  induction rows as [|r rows IH]; [reflexivity|].
  cbn [flat_map map]. rewrite <- List.app_assoc. cbn [List.app].
  rewrite split_lines_line by apply dumps_no_LF. now rewrite IH.
Qed.

(** The lines of the file a returning run leaves. *)
Lemma export_logs_lines w w' ts t :
  db w = Database ts ->
  find_table "smtp_sessions" ts = Some t ->
  export_logs w = (Return tt, w') ->
  forallb (goes_through (t_columns t)) (t_rows t) = true /\
  out w' = Some (flat_map (fun r => line_of (t_columns t) r ++ [LF]) (t_rows t)) /\
  split_lines (content w') = map (line_of (t_columns t)) (t_rows t).
Proof.
  intros Hdb Ht Hrun.
  destruct (export_logs_returns w w' Hrun)
    as (ts' & t' & Hdb' & Ht' & _ & Hok & Hout & _).
  assert (ts' = ts) as -> by congruence.
  assert (t' = t) as -> by congruence.
  pose proof (written_ok _ _ Hok) as Hall.
  rewrite (written_all _ _ Hall) in Hout. cbn [fst] in Hout.
  repeat split; auto.
  unfold content. rewrite Hout. apply lines_written.
Qed.

(* ------------------------------------------------------------------ *)
(** ** A store as SQLite keeps it *)

Lemma sessions_well_formed : well_formed sessions.
Proof.
  split.
  - repeat constructor; cbn [In]; intros H;
      repeat (destruct H as [H|H]; [discriminate H|]); exact H.
  - repeat constructor.
Qed.

(* ------------------------------------------------------------------ *)
(** ** A row that cannot be serialized *)

(** C5, as the code has it.  If some row cannot be serialized, the run
    ends with the TypeError of the encoder at the first such row: no row
    is skipped, no later row is written and nothing is rolled back.  The
    destination file holds the complete lines of the rows before it and
    then what [json.dump] had already written of the failing row when the
    encoder raised: the opening brace, the members before the value that
    is not serializable, each with its comma, and the key and colon of
    that value, with no line feed after it. *)
Theorem C5_failing_row_leaves_fragment w ts t :
  db w = Database ts ->
  find_table "smtp_sessions" ts = Some t ->
  out_openable w = true ->
  forallb (goes_through (t_columns t)) (t_rows t) = false ->
  exists pre bad post d1 k b d2 w',
    t_rows t = pre ++ bad :: post /\
    forallb (goes_through (t_columns t)) pre = true /\
    log_entry (t_columns t) bad = d1 ++ (k, VBytes b) :: d2 /\
    forallb serializable (values d1) = true /\
    export_logs w = (Raise type_error, w') /\
    out w' = Some (flat_map (fun r => line_of (t_columns t) r ++ [LF]) pre
                   ++ "{" :: flat_map member_comma d1
                   ++ encode_basestring_ascii k ++ [":"; " "]) /\
    handles w' = handles w.
Proof.
  intros Hdb Ht Hop Hfail.
  destruct (first_failing _ _ Hfail) as (pre & bad & post & Hrows & Hpre & Hbad).
  pose proof Hbad as Hbad'. rewrite goes_through_serializable in Hbad'.
  destruct (first_bytes _ Hbad') as (d1 & k & b & d2 & Hentry & Hd1).
  destruct (export_logs_table w ts t Hdb Ht Hop) as (w' & Hrun & Hout & _ & _ & Hh & _).
  rewrite Hrows, (written_stops _ _ _ _ Hpre Hbad) in Hrun, Hout.
  cbn [fst snd ended] in Hrun, Hout.
  exists pre, bad, post, d1, k, b, d2, w'. repeat split; auto.
  rewrite Hout. unfold line_of at 2. rewrite Hentry.
  now rewrite (dumps_fragment _ _ _ _ Hd1).
Qed.

Lemma C5_failing_row_witness :
  exists pre bad post d1 k b d2 w',
    t_rows with_blob = pre ++ bad :: post /\
    forallb (goes_through (t_columns with_blob)) pre = true /\
    log_entry (t_columns with_blob) bad = d1 ++ (k, VBytes b) :: d2 /\
    forallb serializable (values d1) = true /\
    export_logs (fresh (store_of with_blob) stale true) = (Raise type_error, w') /\
    out w' = Some (flat_map (fun r => line_of (t_columns with_blob) r ++ [LF]) pre
                   ++ "{" :: flat_map member_comma d1
                   ++ encode_basestring_ascii k ++ [":"; " "]) /\
    handles w' = handles (fresh (store_of with_blob) stale true).
Proof.
  apply (C5_failing_row_leaves_fragment (fresh (store_of with_blob) stale true)
           [("smtp_sessions"%string, with_blob)] with_blob); reflexivity.
Defined.

(** C5 as stated fails: the file does not hold exactly the lines of the
    rows before the failing one.  Here it holds the first line and then
    the opening brace, the member id and the key payload of the second
    row. *)
Lemma C5_file_holds_more_than_the_lines :
  exists w',
    export_logs (fresh (store_of with_blob) stale true) = (Raise type_error, w') /\
    out w' = Some (line_of (t_columns with_blob) [VInt 1; VStr (str_of "HELO test")]
                   ++ [LF]
                   ++ lit "{" ++ [DQ] ++ lit "id" ++ [DQ] ++ lit ": 2, "
                   ++ [DQ] ++ lit "payload" ++ [DQ] ++ lit ": ") /\
    out w' <> Some (line_of (t_columns with_blob) [VInt 1; VStr (str_of "HELO test")]
                    ++ [LF]).
Proof.
  eexists. split; [vm_compute; reflexivity|]. split.
  - vm_compute. reflexivity.
  - vm_compute. discriminate.
Qed.

(* ------------------------------------------------------------------ *)
(** ** Reading back what the encoder writes *)

(** *** Strings *)

Lemma hexval_hexdigit n : (n < 16)%N -> hexval (hexdigit n) = Some n.
Proof.
  intros H.
  assert ((match hexval (hexdigit n) with Some m => N.eqb m n | None => false end) = true) as E.
  { revert n H.
    apply (below_spec
             (fun n => match hexval (hexdigit n) with Some m => N.eqb m n | None => false end)
             16).
    vm_compute. reflexivity. }
  destruct (hexval (hexdigit n)) as [m|]; [|discriminate].
  apply N.eqb_eq in E. now subst.
Qed.

Lemma hex4_digits n :
  (n < 65536)%N ->
  (((n / 4096 mod 16 * 16 + n / 256 mod 16) * 16 + n / 16 mod 16) * 16 + n mod 16 = n)%N.
Proof.
  intros H.
  pose proof (N.div_mod n 16 ltac:(discriminate)) as E0.
  pose proof (N.div_mod (n / 16) 16 ltac:(discriminate)) as E1.
  pose proof (N.div_mod (n / 16 / 16) 16 ltac:(discriminate)) as E2.
  rewrite !N.Div0.div_div in E1, E2. change (16 * 16)%N with 256%N in *.
  rewrite !N.Div0.div_div in E2. change (256 * 16)%N with 4096%N in *.
  assert (n / 4096 < 16)%N as Hq
    by (apply N.Div0.div_lt_upper_bound; exact H).
  rewrite (N.mod_small (n / 4096) 16 Hq). lia.
Qed.

Lemma hex4val_hex4 n r :
  (n < 65536)%N ->
  parse_chars (u_escape n ++ r) = consto n (parse_chars r).
Proof.
  intros H. unfold u_escape, hex4.
  change (parse_chars
            (("\" :: "u" :: [hexdigit (n / 4096 mod 16); hexdigit (n / 256 mod 16);
                             hexdigit (n / 16 mod 16); hexdigit (n mod 16)]%N) ++ r))
    with (match hex4val (hexdigit (n / 4096 mod 16)) (hexdigit (n / 256 mod 16))
                        (hexdigit (n / 16 mod 16)) (hexdigit (n mod 16)) with
          | Some u => consto u (parse_chars r)
          | None => None
          end).
  unfold hex4val.
  rewrite !hexval_hexdigit by (apply N.mod_lt; discriminate).
  now rewrite hex4_digits.
Qed.

Lemma parse_chars_plain c r :
  (32 <= c)%N -> (c <= 126)%N -> c <> 34%N -> c <> 92%N ->
  parse_chars (ascii_of_N c :: r) = consto c (parse_chars r).
Proof.
  intros H1 H2 H3 H4. cbn [parse_chars]. rewrite N_ascii_embedding by lia.
  apply N.eqb_neq in H3, H4. rewrite H3, H4.
  assert (((c <? 32) || (127 <? c))%N = false) as ->.
  { apply orb_false_intro; apply N.ltb_ge; lia. }
  reflexivity.
Qed.

Lemma lor_surrogate x :
  (x < 1024)%N ->
  N.lor 55296 x = (55296 + x)%N /\ N.lor 56320 x = (56320 + x)%N.
Proof.
  intros H.
  assert (((N.lor 55296 x =? 55296 + x) && (N.lor 56320 x =? 56320 + x))%N = true) as E.
  { revert x H.
    apply (below_spec
             (fun x => ((N.lor 55296 x =? 55296 + x) && (N.lor 56320 x =? 56320 + x))%N)
             1024).
    vm_compute. reflexivity. }
  apply andb_prop in E as [E1 E2]. split; now apply N.eqb_eq.
Qed.

Lemma surrogate_pair n :
  N.lor 55296 (N.land (N.shiftr n 10) 1023) = (55296 + (n / 1024) mod 1024)%N /\
  N.lor 56320 (N.land n 1023) = (56320 + n mod 1024)%N.
Proof.
  change 1023%N with (N.ones 10). rewrite !N.land_ones, N.shiftr_div_pow2.
  change (2 ^ 10)%N with 1024%N.
  split.
  - apply lor_surrogate. apply N.mod_lt. discriminate.
  - apply lor_surrogate. apply N.mod_lt. discriminate.
Qed.

Lemma parse_chars_escape c r :
  parse_chars (escape_char c ++ r) = fold_right consto (parse_chars r) (utf16 c).
Proof.
  unfold escape_char.
  repeat match goal with
         | |- context [if (c =? ?k)%N then _ else _] =>
             let E := fresh "E" in
             destruct (c =? k)%N eqn:E;
             [apply N.eqb_eq in E; subst c; reflexivity|apply N.eqb_neq in E]
         end.
  destruct ((32 <=? c) && (c <=? 126))%N eqn:Hp.
  - apply andb_prop in Hp as [Hp1 Hp2].
    apply N.leb_le in Hp1. apply N.leb_le in Hp2.
    cbn [List.app]. rewrite parse_chars_plain by assumption.
    unfold utf16. assert ((c <? 65536)%N = true) as -> by (apply N.ltb_lt; lia).
    reflexivity.
  - unfold utf16. destruct (c <? 65536)%N eqn:Hb.
    + apply N.ltb_lt in Hb. now rewrite hex4val_hex4.
    + cbv zeta. destruct (surrogate_pair (c - 65536)) as [-> ->].
      rewrite <- List.app_assoc.
      assert ((c - 65536) / 1024 mod 1024 < 1024)%N by (apply N.mod_lt; discriminate).
      assert ((c - 65536) mod 1024 < 1024)%N by (apply N.mod_lt; discriminate).
      rewrite !hex4val_hex4 by lia. reflexivity.
Qed.

Lemma parse_chars_string s r :
  parse_chars (flat_map escape_char s ++ DQ :: r) = Some (flat_map utf16 s, r).
Proof.
  induction s as [|c s IH]; [reflexivity|].
  cbn [flat_map]. rewrite <- List.app_assoc, parse_chars_escape, IH.
  unfold utf16. destruct (c <? 65536)%N; reflexivity.
Qed.

Lemma join_plain a u :
  is_high a = false -> join_surrogates (a :: u) = a :: join_surrogates u.
Proof.
  intros H. destruct u as [|b u]; [reflexivity|].
  cbn [join_surrogates]. now rewrite H.
Qed.

Lemma join_pair a b u :
  is_high a = true -> is_low b = true ->
  join_surrogates (a :: b :: u)
  = (65536 + (a - 55296) * 1024 + (b - 56320))%N :: join_surrogates u.
Proof.
  intros Ha Hb. cbn [join_surrogates]. now rewrite Ha, Hb.
Qed.

(** A str of scalar values is read back as it was. *)
Lemma reread_scalar s : forallb scalar s = true -> reread s = s.
Proof.
  unfold reread. induction s as [|c s IH]; [reflexivity|].
  cbn [forallb flat_map]. intros H. apply andb_prop in H as [Hc Hs].
  specialize (IH Hs). unfold scalar in Hc. unfold utf16 at 1.
  destruct (c <? 65536)%N eqn:Hb.
  - apply N.ltb_lt in Hb. cbn [List.app]. rewrite join_plain, IH; [reflexivity|].
    unfold is_high. apply orb_prop in Hc as [Hc|Hc].
    + apply N.ltb_lt in Hc. apply andb_false_intro1. apply N.leb_gt. lia.
    + apply andb_prop in Hc as [Hc _]. apply N.ltb_lt in Hc.
      apply andb_false_intro2. apply N.leb_gt. lia.
  - apply N.ltb_ge in Hb.
    assert (c < 1114112)%N as Hu.
    { apply orb_prop in Hc as [Hc|Hc].
      - apply N.ltb_lt in Hc. lia.
      - apply andb_prop in Hc as [_ Hc]. now apply N.ltb_lt in Hc. }
    assert ((c - 65536) / 1024 < 1024)%N as Hq
      by (apply N.Div0.div_lt_upper_bound; lia).
    rewrite (N.mod_small _ _ Hq).
    pose proof (N.mod_lt (c - 65536) 1024 ltac:(discriminate)) as Hr.
    pose proof (N.div_mod (c - 65536) 1024 ltac:(discriminate)) as Hd.
    set (q := ((c - 65536) / 1024)%N) in *.
    set (m := ((c - 65536) mod 1024)%N) in *. clearbody q m.
    cbn [List.app]. rewrite join_pair, IH.
    + f_equal. lia.
    + unfold is_high. apply andb_true_intro. split; apply N.leb_le; lia.
    + unfold is_low. apply andb_true_intro. split; apply N.leb_le; lia.
Qed.

Lemma parse_string_encoded s r :
  parse_string (flat_map escape_char s ++ DQ :: r) = Some (reread s, r).
Proof. unfold parse_string. now rewrite parse_chars_string. Qed.

(** *** Numbers *)

Lemma closes_cases r :
  closes r = true -> r = [] \/ exists r', r = "," :: r' \/ r = "}" :: r'.
Proof.
  destruct r as [|c r]; [now left|]. cbn [closes]. intros H. right. exists r.
  apply orb_prop in H as [H|H]; apply Ascii.eqb_eq in H; subst; auto.
Qed.

Lemma closes_no_digit r : closes r = true -> no_digit r.
Proof.
  intros H. destruct (closes_cases r H) as [->|(r' & [->| ->])]; reflexivity.
Qed.

Lemma read_digits_uint u r :
  no_digit r -> read_digits (uint_text u ++ r) = (u, r).
Proof.
  intros H. induction u; cbn [uint_text List.app read_digits];
    try (rewrite IHu; reflexivity).
  destruct r as [|c r]; [reflexivity|]. cbn [read_digits]. cbn [no_digit] in H.
  now rewrite H.
Qed.

Lemma unorm_fixed_canonical u : unorm u = u -> canonical u = true.
Proof.
  destruct u as [|u| | | | | | | | |]; try reflexivity.
  - discriminate.
  - rewrite DecimalFacts.unorm_D0. unfold unorm.
    destruct (nzhead u) eqn:E; intros H; try (injection H as <-; reflexivity);
      exfalso; rewrite <- E in H; exact (DecimalFacts.nzhead_nonzero _ _ H).
Qed.

Lemma canonical_to_uint n : canonical (N.to_uint n) = true.
Proof.
  apply unorm_fixed_canonical.
  rewrite <- DecimalN.Unsigned.to_of. now rewrite DecimalN.Unsigned.of_to.
Qed.

Lemma to_uint_not_nil n : is_nil (N.to_uint n) = false.
Proof.
  pose proof (canonical_to_uint n) as H. now destruct (N.to_uint n).
Qed.

Lemma parse_exp_closes r : closes r = true -> parse_exp r = Some (None, r).
Proof.
  intros H. destruct (closes_cases r H) as [->|(r' & [->| ->])]; reflexivity.
Qed.

Lemma parse_frac_closes r : closes r = true -> parse_frac r = Some (Nil, r).
Proof.
  intros H. destruct (closes_cases r H) as [->|(r' & [->| ->])]; reflexivity.
Qed.

Lemma signed_abs z : signed (z <? 0)%Z (Z.abs_N z) = z.
Proof.
  unfold signed. rewrite N2Z.inj_abs_N.
  destruct (z <? 0)%Z eqn:E; [apply Z.ltb_lt in E|apply Z.ltb_ge in E]; lia.
Qed.

Lemma parse_exp_text z r :
  closes r = true -> parse_exp (exp_text z ++ r) = Some (Some z, r).
Proof.
  intros H. apply closes_no_digit in H. unfold exp_text.
  assert (forall neg u,
             is_nil u = false ->
             N.of_uint u = Z.abs_N z ->
             neg = (z <? 0)%Z ->
             parse_exp ("e" :: (if neg then "-" else "+") :: uint_text u ++ r)
             = Some (Some z, r)) as K.
  { intros neg u Hu Hv ->.
    assert (parse_exp_sign ((if (z <? 0)%Z then "-" else "+") :: uint_text u ++ r)
            = ((z <? 0)%Z, uint_text u ++ r)) as Hs
      by (destruct (z <? 0)%Z; reflexivity).
    cbn [parse_exp]. change (Ascii.eqb "e" "e" || Ascii.eqb "e" "E") with true.
    cbv iota. rewrite Hs, (read_digits_uint u r H), Hu, Hv.
    now rewrite signed_abs. }
  destruct (Z.abs_N z <? 10)%N.
  - apply (K (z <? 0)%Z (D0 (N.to_uint (Z.abs_N z)))); try reflexivity.
    apply DecimalN.Unsigned.of_to.
  - apply (K (z <? 0)%Z (N.to_uint (Z.abs_N z))); try reflexivity.
    + apply to_uint_not_nil.
    + apply DecimalN.Unsigned.of_to.
Qed.

Lemma parse_exp_part e r :
  closes r = true -> parse_exp (exp_part e ++ r) = Some (e, r).
Proof.
  intros H. destruct e as [z|]; cbn [exp_part].
  - now apply parse_exp_text.
  - now apply parse_exp_closes.
Qed.

Lemma exp_part_no_digit e r : closes r = true -> no_digit (exp_part e ++ r).
Proof.
  intros H. destruct e as [z|]; cbn [exp_part].
  - reflexivity.
  - now apply closes_no_digit.
Qed.

Lemma parse_frac_part f e r :
  closes r = true ->
  parse_frac (frac_part f ++ exp_part e ++ r) = Some (f, exp_part e ++ r).
Proof.
  intros H.
  assert (forall u, is_nil u = false ->
            parse_frac ("." :: uint_text u ++ exp_part e ++ r)
            = Some (u, exp_part e ++ r)) as K.
  { intros u Hu. cbn [parse_frac]. change (Ascii.eqb "." ".") with true. cbv iota.
    now rewrite (read_digits_uint u _ (exp_part_no_digit e r H)), Hu. }
  destruct f; try (apply K; reflexivity).
  cbn [frac_part List.app]. destruct e as [z|]; cbn [exp_part].
  - reflexivity.
  - now apply parse_frac_closes.
Qed.

Lemma frac_part_no_digit f e r :
  closes r = true -> no_digit (frac_part f ++ exp_part e ++ r).
Proof.
  intros H. destruct f; try reflexivity.
  cbn [frac_part List.app]. now apply exp_part_no_digit.
Qed.

Lemma float_repr_parts n :
  float_repr n
  = (if n_neg n then ["-"] else [])
      ++ N_text (n_int n) ++ frac_part (n_frac n) ++ exp_part (n_exp n).
Proof.
  unfold float_repr, frac_part, exp_part. destruct (n_frac n); reflexivity.
Qed.

Lemma parse_sign_digits u r :
  is_nil u = false -> parse_sign (uint_text u ++ r) = (false, uint_text u ++ r).
Proof. destruct u; intros H; try discriminate; reflexivity. Qed.

Lemma parse_number_repr n r :
  closes r = true -> parse_number (float_repr n ++ r) = Some (n, r).
Proof.
  intros H. rewrite float_repr_parts. destruct n as [neg i f e].
  cbn [n_neg n_int n_frac n_exp]. rewrite <- !List.app_assoc.
  unfold parse_number.
  assert (parse_sign ((if neg then ["-"] else [])
                        ++ N_text i ++ frac_part f ++ exp_part e ++ r)
          = (neg, N_text i ++ frac_part f ++ exp_part e ++ r)) as ->.
  { destruct neg; [reflexivity|]. cbn [List.app]. unfold N_text.
    apply parse_sign_digits, to_uint_not_nil. }
  unfold N_text.
  rewrite (read_digits_uint _ _ (frac_part_no_digit f e r H)).
  rewrite canonical_to_uint, (parse_frac_part f e r H), (parse_exp_part e r H).
  now rewrite DecimalN.Unsigned.of_to.
Qed.

(** *** Values *)

Lemma parse_value_minus f s :
  parse_value (S f) ("-" :: s) = numbered (parse_number ("-" :: s)).
Proof. reflexivity. Qed.

Lemma parse_value_digits f u r :
  is_nil u = false ->
  parse_value (S f) (uint_text u ++ r) = numbered (parse_number (uint_text u ++ r)).
Proof. destruct u; intros H; try discriminate; reflexivity. Qed.

Lemma parse_value_quote f s :
  parse_value (S f) (DQ :: s)
  = match parse_string s with
    | Some (u, r') => Some (JString u, r')
    | None => None
    end.
Proof. reflexivity. Qed.

Lemma parse_value_repr f n r :
  closes r = true -> parse_value (S f) (float_repr n ++ r) = Some (JNumber n, r).
Proof.
  intros H.
  assert (parse_value (S f) (float_repr n ++ r)
          = numbered (parse_number (float_repr n ++ r))) as ->.
  { rewrite float_repr_parts, <- !List.app_assoc. destruct (n_neg n).
    - apply parse_value_minus.
    - cbn [List.app]. unfold N_text. apply parse_value_digits, to_uint_not_nil. }
  now rewrite parse_number_repr.
Qed.

Lemma intstr_repr z :
  intstr z = float_repr (mkNumber (z <? 0)%Z (Z.abs_N z) Nil None).
Proof.
  unfold intstr, float_repr. cbn [n_neg n_int n_frac n_exp].
  rewrite !List.app_nil_r. now destruct (z <? 0)%Z.
Qed.

Lemma parse_value_encoded f v t j r :
  encode_value v = Some t ->
  read_back v = Some j ->
  closes r = true ->
  parse_value (S f) (t ++ r) = Some (j, r).
Proof.
  intros Ht Hj Hr. destruct v as [|z|[n| | |]|s|b]; cbn in Ht, Hj;
    try discriminate; injection Ht as <-; injection Hj as <-.
  - reflexivity.
  - rewrite intstr_repr. now apply parse_value_repr.
  - now apply parse_value_repr.
  - unfold encode_basestring_ascii. cbn [List.app]. rewrite <- List.app_assoc.
    cbn [List.app]. now rewrite parse_value_quote, parse_string_encoded.
Qed.

Lemma skip_ws_digits u r :
  is_nil u = false -> skip_ws (uint_text u ++ r) = uint_text u ++ r.
Proof. destruct u; intros H; try discriminate; reflexivity. Qed.

Lemma skip_ws_repr n r : skip_ws (float_repr n ++ r) = float_repr n ++ r.
Proof.
  rewrite float_repr_parts, <- !List.app_assoc. destruct (n_neg n).
  - reflexivity.
  - cbn [List.app]. unfold N_text. apply skip_ws_digits, to_uint_not_nil.
Qed.

Lemma skip_ws_encoded v t r :
  encode_value v = Some t -> skip_ws (t ++ r) = t ++ r.
Proof.
  intros Ht. destruct v as [|z|[n| | |]|s|b]; cbn in Ht;
    try discriminate; injection Ht as <-; try reflexivity.
  - rewrite intstr_repr. apply skip_ws_repr.
  - apply skip_ws_repr.
Qed.

Lemma read_back_encoded v j : read_back v = Some j -> exists t, encode_value v = Some t.
Proof.
  destruct v as [|z|f|s|b]; cbn; intros H; try discriminate; eauto.
Qed.

(** *** Objects *)

Lemma parse_members_unfold f s :
  parse_members (S f) s
  = match strip [DQ] s with
    | None => None
    | Some r =>
    match parse_string r with
    | None => None
    | Some (k, r1) =>
    match strip [":"] (skip_ws r1) with
    | None => None
    | Some r2 =>
    match parse_value f (skip_ws r2) with
    | None => None
    | Some (v, r3) =>
        match strip ["}"] (skip_ws r3) with
        | Some r4 => Some ([(k, v)], r4)
        | None =>
            match strip [","] (skip_ws r3) with
            | None => None
            | Some r4 =>
                match parse_members f (skip_ws r4) with
                | Some (m, r5) => Some ((k, v) :: m, r5)
                | None => None
                end
            end
        end
    end end end end.
Proof. reflexivity. Qed.

(** A member, up to its value. *)
Lemma parse_member f k t tail :
  skip_ws (t ++ tail) = t ++ tail ->
  parse_members (S f) (encode_basestring_ascii k ++ [":"; " "] ++ t ++ tail)
  = match parse_value f (t ++ tail) with
    | None => None
    | Some (v, r3) =>
        match strip ["}"] (skip_ws r3) with
        | Some r4 => Some ([(reread k, v)], r4)
        | None =>
            match strip [","] (skip_ws r3) with
            | None => None
            | Some r4 =>
                match parse_members f (skip_ws r4) with
                | Some (m, r5) => Some ((reread k, v) :: m, r5)
                | None => None
                end
            end
        end
    end.
Proof.
  intros Hws. rewrite parse_members_unfold.
  unfold encode_basestring_ascii. cbn [List.app]. rewrite <- List.app_assoc.
  cbn [List.app].
  change (strip [DQ] (DQ :: flat_map escape_char k ++ DQ :: ":" :: " " :: t ++ tail))
    with (Some (flat_map escape_char k ++ DQ :: ":" :: " " :: t ++ tail)).
  cbv iota. rewrite parse_string_encoded. cbv iota.
  change (skip_ws (":" :: " " :: t ++ tail)) with (":" :: " " :: t ++ tail).
  change (strip [":"] (":" :: " " :: t ++ tail)) with (Some (" " :: t ++ tail)).
  cbv iota.
  change (skip_ws (" " :: t ++ tail)) with (skip_ws (t ++ tail)).
  now rewrite Hws.
Qed.

Lemma skip_ws_members d x :
  d <> [] ->
  skip_ws (members_text (fields_of d) ++ x) = members_text (fields_of d) ++ x.
Proof.
  destruct d as [|[k v] d]; [congruence|]. intros _. reflexivity.
Qed.

Lemma members_text_more k v fields :
  fields <> [] ->
  members_text ((k, v) :: fields)
  = k ++ [":"; " "] ++ v ++ [","; " "] ++ members_text fields.
Proof. destruct fields; [congruence|reflexivity]. Qed.

Lemma fields_of_cons k v d :
  fields_of ((k, v) :: d) = (encode_basestring_ascii k, value_text v) :: fields_of d.
Proof. reflexivity. Qed.

Lemma parse_members_text d : forall f r members,
  d <> [] ->
  members_with reread read_back d = Some members ->
  (List.length d <= f)%nat ->
  parse_members (S f) (members_text (fields_of d) ++ "}" :: r) = Some (members, r).
Proof.
  induction d as [|[k v] d IH]; intros f r members Hne Hm Hf; [congruence|].
  cbn [members_with] in Hm.
  destruct (read_back v) as [j|] eqn:Hj; [|discriminate].
  destruct (members_with reread read_back d) as [m|] eqn:Hd; [|discriminate].
  injection Hm as <-.
  destruct (read_back_encoded v j Hj) as [t Ht].
  destruct f as [|f]; [cbn in Hf; lia|].
  rewrite fields_of_cons. unfold value_text at 1. rewrite Ht.
  destruct d as [|kv d].
  - cbn [fields_of map members_text]. injection Hd as <-.
    rewrite <- !List.app_assoc.
    rewrite parse_member by (eapply skip_ws_encoded; exact Ht).
    cbn [List.app].
    rewrite (parse_value_encoded f v t j ("}" :: r) Ht Hj eq_refl).
    reflexivity.
  - set (d' := kv :: d) in *.
    rewrite members_text_more by (subst d'; discriminate).
    rewrite <- !List.app_assoc.
    rewrite parse_member by (eapply skip_ws_encoded; exact Ht).
    cbn [List.app].
    rewrite (parse_value_encoded f v t j
               ("," :: " " :: members_text (fields_of d') ++ "}" :: r) Ht Hj eq_refl).
    change (skip_ws ("," :: " " :: members_text (fields_of d') ++ "}" :: r))
      with ("," :: " " :: members_text (fields_of d') ++ "}" :: r).
    change (strip ["}"] ("," :: " " :: members_text (fields_of d') ++ "}" :: r))
      with (@None text).
    change (strip [","] ("," :: " " :: members_text (fields_of d') ++ "}" :: r))
      with (Some (" " :: members_text (fields_of d') ++ "}" :: r)).
    cbv iota.
    change (skip_ws (" " :: members_text (fields_of d') ++ "}" :: r))
      with (skip_ws (members_text (fields_of d') ++ "}" :: r)).
    rewrite skip_ws_members by (subst d'; discriminate).
    rewrite (IH f r m); [reflexivity|subst d'; discriminate|reflexivity|].
    cbn [List.length] in Hf. lia.
Qed.

Lemma members_text_length d :
  (List.length d <= List.length (members_text (fields_of d)))%nat.
Proof.
  induction d as [|[k v] d IH]; [apply le_n|].
  rewrite fields_of_cons. destruct d as [|kv d].
  - cbn [fields_of map members_text]. rewrite !length_app. cbn [List.length]. lia.
  - set (d' := kv :: d) in *.
    rewrite members_text_more by (subst d'; discriminate).
    rewrite !length_app. cbn [List.length] in *. lia.
Qed.

(** What a strict decoder reads from the text [json.dump] writes for a
    mapping whose values all have an image. *)
Lemma loads_dumps d members :
  members_with reread read_back d = Some members ->
  loads (dumps d) = Some (JObject members).
Proof.
  intros Hm.
  assert (forallb serializable (values d) = true) as Hs.
  { clear -Hm. revert members Hm. induction d as [|[k v] d IH]; intros m Hm;
      [reflexivity|]. cbn [members_with] in Hm.
    destruct (read_back v) eqn:Hj; [|discriminate].
    destruct (members_with reread read_back d) eqn:Hd; [|discriminate].
    cbn [values map snd forallb]. fold (values d). rewrite (IH _ eq_refl).
    destruct v; try reflexivity; discriminate. }
  rewrite (dumps_text d Hs). destruct d as [|kv d].
  - injection Hm as <-. reflexivity.
  - set (d' := kv :: d) in *.
    unfold loads.
    change (skip_ws ("{" :: members_text (fields_of d') ++ ["}"]))
      with ("{" :: members_text (fields_of d') ++ ["}"]).
    cbn [List.length].
    change (parse_value (S (S (List.length (members_text (fields_of d') ++ ["}"]))))
              ("{" :: members_text (fields_of d') ++ ["}"]))
      with (match strip ["}"] (skip_ws (members_text (fields_of d') ++ ["}"])) with
            | Some r' => Some (JObject [], r')
            | None =>
                match parse_members (S (List.length (members_text (fields_of d') ++ ["}"])))
                        (skip_ws (members_text (fields_of d') ++ ["}"])) with
                | Some (m, r') => Some (JObject m, r')
                | None => None
                end
            end).
    rewrite skip_ws_members by (subst d'; discriminate).
    assert (strip ["}"] (members_text (fields_of d') ++ ["}"]) = None) as ->.
    { subst d'. destruct kv as [k v]. reflexivity. }
    rewrite (parse_members_text d' _ [] members); try assumption.
    + reflexivity.
    + subst d'. discriminate.
    + rewrite length_app. pose proof (members_text_length d'). lia.
Qed.

(* ------------------------------------------------------------------ *)
(** ** Lines, rows and JSON *)

Lemma members_exist d :
  forallb serializable (values d) = true ->
  forallb finite_value (values d) = true ->
  exists m, members_with reread read_back d = Some m.
Proof.
  induction d as [|[k v] d IH]; intros Hs Hf; [now exists []|].
  cbn [values map snd forallb] in Hs, Hf. fold (values d) in Hs, Hf.
  apply andb_prop in Hs as [Hs1 Hs2]. apply andb_prop in Hf as [Hf1 Hf2].
  destruct (IH Hs2 Hf2) as [m Hm]. cbn [members_with]. rewrite Hm.
  destruct v as [|z|[n| | |]|s|b]; try discriminate; cbn; eauto.
Qed.

Lemma read_back_scalar v : scalar_value v = true -> read_back v = type_mapping v.
Proof.
  destruct v as [|z|f|s|b]; try reflexivity.
  cbn [scalar_value read_back type_mapping]. intros H. now rewrite reread_scalar.
Qed.

Lemma images_exist (r : row) :
  forallb serializable r = true ->
  forallb finite_value r = true ->
  exists js, map type_mapping r = map Some js.
Proof.
  induction r as [|v r IH]; intros Hs Hf; [now exists []|].
  cbn [forallb] in Hs, Hf.
  apply andb_prop in Hs as [Hs1 Hs2]. apply andb_prop in Hf as [Hf1 Hf2].
  destruct (IH Hs2 Hf2) as [js Hjs].
  destruct v as [|z|[n| | |]|s|b]; try discriminate;
    eexists (_ :: js); cbn [map type_mapping]; rewrite Hjs; reflexivity.
Qed.

Lemma members_of_row (cols : list str) (r : row) js :
  List.length r = List.length cols ->
  forallb (forallb scalar) cols = true ->
  forallb scalar_value r = true ->
  map type_mapping r = map Some js ->
  members_with reread read_back (combine cols r) = Some (combine cols js) /\
  members_with (fun k => k) type_mapping (combine cols r) = Some (combine cols js).
Proof.
  revert r js. induction cols as [|c cols IH]; intros [|v r] js Hlen Hc Hr Hjs;
    try discriminate.
  - now split.
  - destruct js as [|j js]; [discriminate|].
    cbn [map] in Hjs. injection Hjs as Hj Hjs.
    cbn [forallb] in Hc, Hr.
    apply andb_prop in Hc as [Hc1 Hc2]. apply andb_prop in Hr as [Hr1 Hr2].
    cbn [List.length] in Hlen. injection Hlen as Hlen.
    destruct (IH r js Hlen Hc2 Hr2 Hjs) as [E1 E2].
    cbn [combine members_with]. rewrite E1, E2, (read_back_scalar v Hr1), Hj.
    now rewrite (reread_scalar c Hc1).
Qed.

(** C1, as the code has it.  A run that returns leaves a file of exactly
    as many lines as the table has rows, the line at each position being
    the serialization of the row at that position and of nothing else
    (an empty table gives no line).  A line is a JSON text whenever the
    mapping of its row holds no REAL that is not finite; for an infinite
    REAL [json.dump] writes the bare word Infinity or -Infinity, which is
    not JSON. *)
Theorem C1_one_line_per_row w ts t w' :
  db w = Database ts ->
  find_table "smtp_sessions" ts = Some t ->
  export_logs w = (Return tt, w') ->
  split_lines (content w') = map (line_of (t_columns t)) (t_rows t) /\
  List.length (split_lines (content w')) = List.length (t_rows t) /\
  (t_rows t = [] -> split_lines (content w') = []) /\
  Forall (fun r =>
            forallb finite_value (values (log_entry (t_columns t) r)) = true ->
            valid (line_of (t_columns t) r) = true)
         (t_rows t).
Proof.
  intros Hdb Ht Hrun.
  destruct (export_logs_lines w w' ts t Hdb Ht Hrun) as (Hall & _ & Hlines).
  repeat split.
  - exact Hlines.
  - rewrite Hlines. apply length_map.
  - intros E. rewrite Hlines, E. reflexivity.
  - apply Forall_forall. intros r Hr Hfin.
    rewrite forallb_forall in Hall. specialize (Hall r Hr).
    rewrite goes_through_serializable in Hall.
    destruct (members_exist _ Hall Hfin) as [m Hm].
    unfold valid, line_of. now rewrite (loads_dumps _ m Hm).
Qed.

Lemma C1_one_line_witness :
  split_lines (content (snd (export_logs (fresh (store_of sessions) stale true))))
  = map (line_of (t_columns sessions)) (t_rows sessions) /\
  List.length (split_lines (content (snd (export_logs (fresh (store_of sessions) stale true)))))
  = 2 /\
  Forall (fun r =>
            forallb finite_value (values (log_entry (t_columns sessions) r)) = true ->
            valid (line_of (t_columns sessions) r) = true)
         (t_rows sessions).
Proof.
  destruct (C1_one_line_per_row (fresh (store_of sessions) stale true)
              [("smtp_sessions"%string, sessions)] sessions
              (snd (export_logs (fresh (store_of sessions) stale true))))
    as (H1 & H2 & _ & H4).
  - reflexivity.
  - reflexivity.
  - vm_compute. reflexivity.
  - repeat split; assumption.
Defined.

(** C1 as stated fails: the run returns, the file has its one line, and
    the line is not a JSON text. *)
Lemma C1_infinity_is_not_json :
  exists w',
    export_logs (fresh (store_of with_infinity) stale true) = (Return tt, w') /\
    split_lines (content w')
    = [lit "{" ++ [DQ] ++ lit "id" ++ [DQ] ++ lit ": 1, "
         ++ [DQ] ++ lit "score" ++ [DQ] ++ lit ": Infinity}"] /\
    Forall (fun l => valid l = false) (split_lines (content w')).
Proof.
  exists (snd (export_logs (fresh (store_of with_infinity) stale true))).
  assert (split_lines
            (content (snd (export_logs (fresh (store_of with_infinity) stale true))))
          = [lit "{" ++ [DQ] ++ lit "id" ++ [DQ] ++ lit ": 1, "
               ++ [DQ] ++ lit "score" ++ [DQ] ++ lit ": Infinity}"]) as E
    by (vm_compute; reflexivity).
  split; [vm_compute; reflexivity|]. split; [exact E|].
  rewrite E. constructor; [vm_compute; reflexivity|constructor].
Qed.

(** C6, as the code has it.  In a store as SQLite keeps it, with text
    made of Unicode scalar values, the line of every row that a returning
    run has written and that holds no REAL that is not finite decodes as
    JSON to the object whose field names are the column names and whose
    values are the images of the row's values under the type mapping:
    text to string, integer and real to number, null to null. *)
Theorem C6_line_decodes_to_row w ts t w' i r :
  db w = Database ts ->
  find_table "smtp_sessions" ts = Some t ->
  well_formed t ->
  forallb (forallb scalar) (t_columns t) = true ->
  export_logs w = (Return tt, w') ->
  nth_error (t_rows t) i = Some r ->
  forallb finite_value r = true ->
  forallb scalar_value r = true ->
  exists line js,
    nth_error (split_lines (content w')) i = Some line /\
    map type_mapping r = map Some js /\
    loads line = Some (JObject (combine (t_columns t) js)) /\
    object_of (log_entry (t_columns t) r) = Some (JObject (combine (t_columns t) js)).
Proof.
  intros Hdb Ht [Hnd Hlen] Hcols Hrun Hi Hfin Hsc.
  destruct (export_logs_lines w w' ts t Hdb Ht Hrun) as (Hall & _ & Hlines).
  pose proof (nth_error_In _ _ Hi) as Hin.
  rewrite Forall_forall in Hlen. specialize (Hlen r Hin).
  rewrite forallb_forall in Hall. specialize (Hall r Hin).
  rewrite goes_through_serializable in Hall.
  destruct (log_entry_well_formed _ _ Hnd Hlen) as [_ Hv]. rewrite Hv in Hall.
  pose proof (log_entry_distinct _ r Hnd) as Hz. unfold zip in Hz.
  destruct (images_exist r Hall Hfin) as [js Hjs].
  destruct (members_of_row _ _ js Hlen Hcols Hsc Hjs) as [E1 E2].
  exists (line_of (t_columns t) r), js. repeat split.
  - rewrite Hlines. now apply map_nth_error.
  - exact Hjs.
  - unfold line_of. rewrite Hz. now apply loads_dumps.
  - unfold object_of. now rewrite Hz, E2.
Qed.

Lemma C6_line_decodes_witness :
  exists line js,
    nth_error (split_lines
                 (content (snd (export_logs (fresh (store_of sessions) stale true))))) 1
    = Some line /\
    map type_mapping
        [VInt 2; VStr (str_of "2024-01-01T00:05:00Z"); VStr (str_of "10.0.0.6");
         VStr (str_of "MAIL FROM:<a@b.com>")]
    = map Some js /\
    loads line = Some (JObject (combine (t_columns sessions) js)) /\
    object_of (log_entry (t_columns sessions)
                 [VInt 2; VStr (str_of "2024-01-01T00:05:00Z"); VStr (str_of "10.0.0.6");
                  VStr (str_of "MAIL FROM:<a@b.com>")])
    = Some (JObject (combine (t_columns sessions) js)).
Proof.
  apply (C6_line_decodes_to_row (fresh (store_of sessions) stale true)
           [("smtp_sessions"%string, sessions)] sessions).
  - reflexivity.
  - reflexivity.
  - exact sessions_well_formed.
  - reflexivity.
  - vm_compute. reflexivity.
  - reflexivity.
  - reflexivity.
  - reflexivity.
Defined.

(** C6 as stated fails: the row is exported, and its line does not
    decode as JSON, so no mapping comes back. *)
Lemma C6_minus_infinity_does_not_decode :
  exists w' line,
    export_logs (fresh (store_of with_minus_infinity) stale true) = (Return tt, w') /\
    split_lines (content w') = [line] /\
    line = lit "{" ++ [DQ] ++ lit "id" ++ [DQ] ++ lit ": 1, "
             ++ [DQ] ++ lit "score" ++ [DQ] ++ lit ": -Infinity}" /\
    loads line = None.
Proof.
  eexists. eexists. split; [vm_compute; reflexivity|]. split; [vm_compute; reflexivity|].
  split; vm_compute; reflexivity.
Qed.

(* ------------------------------------------------------------------ *)
(** ** Every run, case by case *)

Lemma export_logs_cases w o w' :
  export_logs w = (o, w') ->
  handles w' = handles w /\
  out_openable w' = out_openable w /\
  (((db w = Absent false \/ db w = Unopenable) /\
    o = Raise (OperationalError "unable to open database file") /\
    db w' = db w /\ out w' = out w /\ connections w' = connections w /\
    trace w' = trace w ++ [CConnect])
   \/
   (db w = Absent true /\
    o = Raise (OperationalError "no such table: smtp_sessions") /\
    db w' = Database [] /\ out w' = out w /\ connections w' = S (connections w) /\
    trace w' = trace w ++ [CConnect; CExecute])
   \/
   (db w = NotADatabase /\
    o = Raise (DatabaseError "file is not a database") /\
    db w' = db w /\ out w' = out w /\ connections w' = S (connections w) /\
    trace w' = trace w ++ [CConnect; CExecute])
   \/
   (source_table w = None /\ is_database (db w) = true /\
    o = Raise (OperationalError "no such table: smtp_sessions") /\
    db w' = db w /\ out w' = out w /\ connections w' = S (connections w) /\
    trace w' = trace w ++ [CConnect; CExecute])
   \/
   ((exists t, source_table w = Some t) /\ out_openable w = false /\
    o = Raise OSError /\
    db w' = db w /\ out w' = out w /\ connections w' = S (connections w) /\
    trace w' = trace w ++ [CConnect; CExecute; CFetchall; COpen])
   \/
   (exists t,
      source_table w = Some t /\ out_openable w = true /\
      o = ended (snd (written (t_columns t) (t_rows t))) /\
      db w' = db w /\
      out w' = Some (fst (written (t_columns t) (t_rows t))) /\
      connections w'
      = (if snd (written (t_columns t) (t_rows t))
         then connections w else S (connections w)) /\
      trace w' = trace w ++ [CConnect; CExecute; CFetchall; COpen; CCloseFile]
                         ++ (if snd (written (t_columns t) (t_rows t))
                             then [CCloseConn] else []))).
Proof.
  intros Hrun. unfold source_table.
  destruct (db w) as [[|]| | |ts] eqn:Hdb.
  - destruct (export_logs_created w Hdb) as (w1 & H1 & Hd & Ho & Hop & Hh & Hc & Htr).
    rewrite H1 in Hrun. injection Hrun as <- <-.
    split; [exact Hh|]. split; [exact Hop|]. right. left. repeat split; auto.
  - rewrite export_logs_unopenable in Hrun by auto. injection Hrun as <- <-.
    destruct w; simpl in *. split; [reflexivity|]. split; [reflexivity|].
    left. repeat split; auto.
  - rewrite export_logs_unopenable in Hrun by auto. injection Hrun as <- <-.
    destruct w; simpl in *. split; [reflexivity|]. split; [reflexivity|].
    left. repeat split; auto.
  - destruct (export_logs_not_a_database w Hdb)
      as (w1 & H1 & Hd & Ho & Hop & Hh & Hc & Htr).
    rewrite H1 in Hrun. injection Hrun as <- <-.
    split; [exact Hh|]. split; [exact Hop|]. right. right. left.
    repeat split; auto. congruence.
  - destruct (find_table "smtp_sessions" ts) as [t|] eqn:Ht.
    + destruct (out_openable w) eqn:Hop.
      * destruct (export_logs_table w ts t Hdb Ht Hop)
          as (w1 & H1 & Hout & Hd & Ho & Hh & Hc & Htr).
        rewrite H1 in Hrun. injection Hrun as <- <-.
        split; [exact Hh|]. split; [congruence|].
        do 5 right. exists t. repeat split; auto. congruence.
      * destruct (export_logs_unwritable w ts t Hdb Ht Hop)
          as (w1 & H1 & Hd & Ho & Hop' & Hh & Hc & Htr).
        rewrite H1 in Hrun. injection Hrun as <- <-.
        split; [exact Hh|]. split; [congruence|].
        do 4 right. left. repeat split; eauto. congruence.
    + destruct (export_logs_no_table w ts Hdb Ht)
        as (w1 & H1 & Hd & Ho & Hop & Hh & Hc & Htr).
      rewrite H1 in Hrun. injection Hrun as <- <-.
      split; [exact Hh|]. split; [exact Hop|].
      do 3 right. left. repeat split; auto. congruence.
Qed.

Lemma export_logs_total w : exists o w', export_logs w = (o, w').
Proof. destruct (export_logs w) as [o w']. now exists o, w'. Qed.

Lemma source_table_database w t :
  source_table w = Some t ->
  exists ts, db w = Database ts /\ find_table "smtp_sessions" ts = Some t.
Proof.
  unfold source_table. destruct (db w) as [[|]| | |ts]; try discriminate.
  intros H. now exists ts.
Qed.

Lemma all_go_through cols (rows : list row) :
  forallb (goes_through cols) rows
  = forallb (fun r => forallb serializable (values (log_entry cols r))) rows.
Proof.
  induction rows as [|r rows IH]; [reflexivity|].
  cbn [forallb]. now rewrite IH, goes_through_serializable.
Qed.


(* ------------------------------------------------------------------ *)
(** ** Resources, the store and the destination on every path *)

(** X1.  Whatever way a run ends, by returning or by any of its errors,
    it leaves as many file objects open as it found: the with block of
    lines 16 to 20 closes the output file on every path out of it. *)
Theorem X1_file_object_closed w o w' :
  export_logs w = (o, w') -> handles w' = handles w.
Proof. intros H. now destruct (export_logs_cases w o w' H) as (Hh & _). Qed.

Lemma X1_file_object_closed_witness :
  handles (snd (export_logs (fresh (store_of with_blob) stale true))) = 0.
Proof.
  apply (X1_file_object_closed (fresh (store_of with_blob) stale true)
           (fst (export_logs (fresh (store_of with_blob) stale true)))).
  vm_compute. reflexivity.
Defined.





(** X4.  When the table is there and the output path cannot be opened
    for writing, the run raises the OSError of [open] after the rows have
    been fetched; no file object was acquired, the destination is what
    it was, and the connection stays open. *)
Theorem X4_output_cannot_be_opened w t :
  source_table w = Some t ->
  out_openable w = false ->
  exists w',
    export_logs w = (Raise OSError, w') /\
    trace w' = trace w ++ [CConnect; CExecute; CFetchall; COpen] /\
    out w' = out w /\
    handles w' = handles w /\
    connections w' = S (connections w).
Proof.
  intros Ht Hop. destruct (source_table_database w t Ht) as (ts & Hdb & Hf).
  destruct (export_logs_unwritable w ts t Hdb Hf Hop)
    as (w' & Hrun & _ & Hout & _ & Hh & Hc & Htr).
  exists w'. repeat split; auto.
Qed.

Lemma X4_output_witness :
  exists w',
    export_logs (fresh (store_of sessions) stale false) = (Raise OSError, w') /\
    trace w' = [CConnect; CExecute; CFetchall; COpen] /\
    out w' = stale /\
    handles w' = 0 /\
    connections w' = 1.
Proof.
  apply (X4_output_cannot_be_opened (fresh (store_of sessions) stale false) sessions);
    reflexivity.
Defined.

(** X5.  The destination file is touched only after the query has
    succeeded: if a run leaves the destination different from what it
    was, then the store has the table and the output path opens.  Every
    failure before line 16 leaves the earlier export in place. *)
Theorem X5_destination_changes_only_after_query w o w' :
  export_logs w = (o, w') ->
  out w' <> out w ->
  (exists t, source_table w = Some t) /\ out_openable w = true.
Proof.
  intros H Hd. destruct (export_logs_cases w o w' H) as (_ & _ & Hc).
  destruct Hc as [(_ & _ & _ & E & _)|[(_ & _ & _ & E & _)|
                 [(_ & _ & _ & E & _)|[(_ & _ & _ & _ & E & _)|
                 [(_ & _ & _ & _ & E & _)|(t & Ht & Hop & _)]]]]]; try contradiction.
  split; [now exists t|exact Hop].
Qed.

Lemma X5_destination_witness :
  (exists t, source_table (fresh (store_of with_blob) stale true) = Some t) /\
  out_openable (fresh (store_of with_blob) stale true) = true.
Proof.
  apply (X5_destination_changes_only_after_query
           (fresh (store_of with_blob) stale true)
           (fst (export_logs (fresh (store_of with_blob) stale true)))
           (snd (export_logs (fresh (store_of with_blob) stale true)))).
  - vm_compute. reflexivity.
  - vm_compute. discriminate.
Defined.

(* ------------------------------------------------------------------ *)
(** ** The script as a whole *)

(** X6.  Run as a script, the program exits with status 0 only if the
    store has the table, the output path opens, and no mapping built
    from a row holds a bytes value: whenever one of the three fails, the
    exit status is 1. *)
Theorem X6_exit_status w :
  fst (main w) = 0%Z ->
  exists t,
    source_table w = Some t /\ out_openable w = true /\
    forallb (fun r => forallb serializable (values (log_entry (t_columns t) r)))
            (t_rows t) = true.
Proof.
  unfold main. destruct (export_logs w) as [o w'] eqn:H.
  destruct (export_logs_cases w o w' H) as (_ & _ & Hc).
  destruct Hc as [(Hd & -> & _)|[(Hd & -> & _)|
                 [(Hd & -> & _)|[(Hs & _ & -> & _)|
                 [((t & Hs) & Hop & -> & _)|(t & Hs & Hop & -> & _)]]]]];
    cbn [fst]; try discriminate.
  destruct (snd (written (t_columns t) (t_rows t))) eqn:Hok; cbn [ended fst];
    [|discriminate].
  intros _. exists t. split; [exact Hs|]. split; [exact Hop|].
  rewrite <- all_go_through. now apply written_ok.
Qed.

Lemma X6_exit_status_witness :
  exists t,
    source_table (fresh (store_of sessions) stale true) = Some t /\
    out_openable (fresh (store_of sessions) stale true) = true /\
    forallb (fun r => forallb serializable (values (log_entry (t_columns t) r)))
            (t_rows t) = true.
Proof.
  apply (X6_exit_status (fresh (store_of sessions) stale true)).
  vm_compute. reflexivity.
Defined.



(** X8.  In a run that returns, the store is connected to, queried and
    fetched from before the output file is opened, and the file is closed
    before the connection: of the calls that acquire, query or release a
    resource, the run makes connect, execute, fetchall, open, the close
    of the file and the close of the connection, each once, in this
    order. *)
Theorem X8_calls_of_a_returning_run w w' :
  export_logs w = (Return tt, w') ->
  trace w' = trace w ++ [CConnect; CExecute; CFetchall; COpen; CCloseFile; CCloseConn].
Proof.
  intros H. destruct (export_logs_cases w _ w' H) as (_ & _ & Hc).
  destruct Hc as [(_ & E & _)|[(_ & E & _)|
                 [(_ & E & _)|[(_ & _ & E & _)|
                 [(_ & _ & E & _)|(t & _ & _ & E & _ & _ & _ & Htr)]]]]];
    try discriminate.
  destruct (snd (written (t_columns t) (t_rows t))); cbn [ended] in E;
    [exact Htr|discriminate].
Qed.

Lemma X8_calls_witness :
  trace (snd (export_logs (fresh (store_of sessions) stale true)))
  = [CConnect; CExecute; CFetchall; COpen; CCloseFile; CCloseConn].
Proof.
  apply (X8_calls_of_a_returning_run (fresh (store_of sessions) stale true)).
  vm_compute. reflexivity.
Defined.

(* ------------------------------------------------------------------ *)
(** ** The mapping of line 18 when column names repeat *)

Lemma in_keys_setitem d k v k' :
  In k' (keys (setitem d k v)) <-> k' = k \/ In k' (keys d).
Proof.
  induction d as [|[k0 v0] d IH]; cbn [setitem keys map fst In].
  - intuition.
  - destruct (str_eqb k0 k) eqn:E; cbn [map fst In].
    + apply str_eqb_eq in E. subst. intuition.
    + fold (keys (setitem d k v)). rewrite IH. fold (keys d). intuition.
Qed.

Lemma NoDup_keys_setitem d k v : NoDup (keys d) -> NoDup (keys (setitem d k v)).
Proof.
  induction d as [|[k0 v0] d IH]; cbn [setitem keys map fst]; intros H.
  - repeat constructor. intros [].
  - inversion H as [|? ? Hk Hd]; subst. destruct (str_eqb k0 k) eqn:E.
    + cbn [map fst]. now constructor.
    + cbn [map fst]. constructor.
      * fold (keys (setitem d k v)). rewrite in_keys_setitem. intros [->|Hin].
        -- assert (str_eqb k k = true) by now apply str_eqb_eq. congruence.
        -- contradiction.
      * now apply IH.
Qed.

Lemma dict_get_setitem d k v k' :
  dict_get (setitem d k v) k' = if str_eqb k k' then Some v else dict_get d k'.
Proof.
  unfold dict_get. induction d as [|[k0 v0] d IH]; cbn [setitem find fst snd].
  - now destruct (str_eqb k k').
  - destruct (str_eqb k0 k) eqn:E; cbn [find fst snd].
    + apply str_eqb_eq in E. subst k0. now destruct (str_eqb k k').
    + destruct (str_eqb k0 k') eqn:E'.
      * destruct (str_eqb k k') eqn:E''; [|reflexivity].
        apply str_eqb_eq in E'. apply str_eqb_eq in E''. subst.
        assert (str_eqb k' k' = true) by now apply str_eqb_eq. congruence.
      * exact IH.
Qed.

Lemma find_append {A} (f : A -> bool) l1 l2 :
  find f (l1 ++ l2) = match find f l1 with Some x => Some x | None => find f l2 end.
Proof.
  induction l1 as [|x l1 IH]; [reflexivity|]. cbn [List.app find].
  now destruct (f x).
Qed.

Lemma fold_setitem pairs : forall d,
  let d' := fold_left (fun d kv => setitem d (fst kv) (snd kv)) pairs d in
  (NoDup (keys d) -> NoDup (keys d')) /\
  (forall k, In k (keys d') <-> In k (map fst pairs) \/ In k (keys d)) /\
  (forall k, dict_get d' k
             = match last_with pairs k with Some v => Some v | None => dict_get d k end).
Proof.
  induction pairs as [|[k0 v0] pairs IH]; intros d; cbn [fold_left fst snd].
  - cbv zeta. split; [auto|]. split.
    + intros k. cbn [map In]. intuition.
    + intros k. reflexivity.
  - specialize (IH (setitem d k0 v0)). cbv zeta in *.
    destruct IH as (IH1 & IH2 & IH3). split; [|split].
    + intros H. apply IH1. now apply NoDup_keys_setitem.
    + intros k. rewrite IH2, in_keys_setitem. cbn [map fst In]. intuition.
    + intros k. rewrite IH3, dict_get_setitem. unfold last_with. cbn [List.rev].
      rewrite find_append. cbn [find fst snd].
      destruct (find (fun kv => str_eqb (fst kv) k) (List.rev pairs)); [reflexivity|].
      now destruct (str_eqb k0 k).
Qed.

(** X9.  Whatever the column names and the row, the mapping built on
    line 18 never holds a key twice, so no line repeats a field name;
    its keys are the column names that were paired with a value; and
    under a column name that occurs more than once it holds the value
    paired with the last occurrence. *)
Theorem X9_mapping_has_distinct_keys cols r :
  NoDup (keys (log_entry cols r)) /\
  (forall k, In k (keys (log_entry cols r)) <-> In k (map fst (zip cols r))) /\
  (forall k, dict_get (log_entry cols r) k = last_with (zip cols r) k).
Proof.
  unfold log_entry, dict_of.
  destruct (fold_setitem (zip cols r) []) as (H1 & H2 & H3). split; [|split].
  - apply H1. constructor.
  - intros k. rewrite H2. cbn [keys map In]. intuition.
  - intros k. rewrite H3. now destruct (last_with (zip cols r) k).
Qed.

(* ------------------------------------------------------------------ *)
(** ** The characters of the file *)

Lemma file_char_printable l : forallb printable l = true -> forallb file_char l = true.
Proof.
  induction l as [|c l IH]; [reflexivity|]. cbn [forallb]. intros H.
  apply andb_prop in H as [Hc Hl]. unfold file_char at 1. now rewrite Hc, IH.
Qed.

Lemma file_char_written cols rows : forallb file_char (fst (written cols rows)) = true.
Proof.
  induction rows as [|r rows IH]; [reflexivity|]. cbn [written].
  destruct (goes_through cols r).
  - destruct (written cols rows) as [t ok]. cbn [fst] in *.
    rewrite forallb_app. cbn [forallb].
    now rewrite (file_char_printable _ (printable_dumps _)), IH.
  - cbn [fst]. apply file_char_printable, printable_dumps.
Qed.

(** X10.  Whenever a run has opened the output file, whether it then
    returns or fails in a row, every character of the file it leaves is
    an ASCII character from space to tilde or a line feed: text outside
    that range, in column names or in values, is written in escaped
    form. *)
Theorem X10_file_is_ascii w t o w' :
  source_table w = Some t ->
  out_openable w = true ->
  export_logs w = (o, w') ->
  forallb file_char (content w') = true.
Proof.
  intros Ht Hop H. destruct (export_logs_cases w o w' H) as (_ & _ & Hc).
  unfold source_table in Ht.
  destruct Hc as [([Hd|Hd] & _)|[(Hd & _)|
                 [(Hd & _)|[(Hs & _)|
                 [(_ & Hop' & _)|(t' & _ & _ & _ & _ & Hout & _)]]]]];
    try (rewrite Hd in Ht; discriminate); try congruence.
  - unfold source_table in Hs. congruence.
  - unfold content. rewrite Hout. apply file_char_written.
Qed.

Lemma X10_file_is_ascii_witness :
  forallb file_char
    (content (snd (export_logs
                     (fresh (store_of (mkTable [str_of "command"]
                                               [[VStr [233; 10; 128512]%N]]))
                            stale true))))
  = true.
Proof.
  apply (X10_file_is_ascii
           (fresh (store_of (mkTable [str_of "command"] [[VStr [233; 10; 128512]%N]]))
                  stale true)
           (mkTable [str_of "command"] [[VStr [233; 10; 128512]%N]])
           (fst (export_logs
                   (fresh (store_of (mkTable [str_of "command"]
                                             [[VStr [233; 10; 128512]%N]]))
                          stale true)))).
  - reflexivity.
  - reflexivity.
  - vm_compute. reflexivity.
Defined.

(* ------------------------------------------------------------------ *)
(** ** Export after more rows have been recorded *)

(** X11.  If a table has grown by rows added after those it had, the
    columns being the same, the file of a returning run on the grown
    table is the file of a returning run on the old table followed by
    the lines of the added rows: the earlier export is a prefix of the
    later one, line for line. *)
Theorem X11_added_rows_add_lines w1 w2 t1 t2 extra w1' w2' :
  source_table w1 = Some t1 ->
  source_table w2 = Some t2 ->
  t_columns t2 = t_columns t1 ->
  t_rows t2 = t_rows t1 ++ extra ->
  export_logs w1 = (Return tt, w1') ->
  export_logs w2 = (Return tt, w2') ->
  content w2'
  = content w1' ++ flat_map (fun r => line_of (t_columns t1) r ++ [LF]) extra /\
  split_lines (content w2')
  = split_lines (content w1') ++ map (line_of (t_columns t1)) extra.
Proof.
  intros H1 H2 Hc Hr R1 R2.
  destruct (source_table_database w1 t1 H1) as (ts1 & Hd1 & Hf1).
  destruct (source_table_database w2 t2 H2) as (ts2 & Hd2 & Hf2).
  destruct (export_logs_lines w1 w1' ts1 t1 Hd1 Hf1 R1) as (_ & O1 & L1).
  destruct (export_logs_lines w2 w2' ts2 t2 Hd2 Hf2 R2) as (_ & O2 & L2).
  split.
  - unfold content. rewrite O1, O2, Hc, Hr. apply flat_map_app.
  - rewrite L1, L2, Hc, Hr. apply map_app.
Qed.

Lemma X11_added_rows_witness :
  content (snd (export_logs (fresh (store_of sessions_later) stale true)))
  = content (snd (export_logs (fresh (store_of sessions) None true)))
    ++ flat_map (fun r => line_of (t_columns sessions) r ++ [LF])
         [[VInt 3; VStr (str_of "2024-01-01T00:09:00Z"); VStr (str_of "10.0.0.7");
           VStr (str_of "QUIT")]] /\
  split_lines (content (snd (export_logs (fresh (store_of sessions_later) stale true))))
  = split_lines (content (snd (export_logs (fresh (store_of sessions) None true))))
    ++ map (line_of (t_columns sessions))
         [[VInt 3; VStr (str_of "2024-01-01T00:09:00Z"); VStr (str_of "10.0.0.7");
           VStr (str_of "QUIT")]].
Proof.
  apply (X11_added_rows_add_lines
           (fresh (store_of sessions) None true)
           (fresh (store_of sessions_later) stale true)
           sessions sessions_later).
  - reflexivity.
  - reflexivity.
  - reflexivity.
  - reflexivity.
  - vm_compute. reflexivity.
  - vm_compute. reflexivity.
Defined.

(* ------------------------------------------------------------------ *)
(** ** The file after a failure, read as JSON Lines *)

Lemma parse_value_nothing f : parse_value f [] = None.
Proof. destruct f; reflexivity. Qed.

(** A serializable value without an image is a float that is not finite,
    and what the encoder writes for it is no JSON value. *)
Lemma parse_value_not_finite f v t r :
  encode_value v = Some t -> read_back v = None -> parse_value f (t ++ r) = None.
Proof.
  intros Ht Hj. destruct f as [|f]; [reflexivity|].
  destruct v as [|z|[n| | |]|s|b]; cbn in Ht, Hj; try discriminate;
    injection Ht as <-; reflexivity.
Qed.

Lemma member_comma_text k v t :
  encode_value v = Some t ->
  member_comma (k, v) = encode_basestring_ascii k ++ [":"; " "] ++ t ++ [","; " "].
Proof. intros H. unfold member_comma, value_text. cbn [fst snd]. now rewrite H. Qed.

Lemma skip_ws_key k x :
  skip_ws (encode_basestring_ascii k ++ x) = encode_basestring_ascii k ++ x.
Proof. reflexivity. Qed.

Lemma skip_ws_fragment d1 k :
  skip_ws (flat_map member_comma d1 ++ encode_basestring_ascii k ++ [":"; " "])
  = flat_map member_comma d1 ++ encode_basestring_ascii k ++ [":"; " "].
Proof. destruct d1 as [|[k1 v1] d1]; reflexivity. Qed.

Lemma strip_brace_fragment d1 k :
  strip ["}"] (flat_map member_comma d1 ++ encode_basestring_ascii k ++ [":"; " "])
  = None.
Proof. destruct d1 as [|[k1 v1] d1]; reflexivity. Qed.

Lemma parse_members_fragment d1 k : forall f,
  forallb serializable (values d1) = true ->
  parse_members f (flat_map member_comma d1 ++ encode_basestring_ascii k ++ [":"; " "])
  = None.
Proof.
  induction d1 as [|[k1 v1] d1 IH]; intros f Hs.
  - destruct f as [|f]; [reflexivity|]. cbn [flat_map List.app].
    change (encode_basestring_ascii k ++ [":"; " "])
      with (encode_basestring_ascii k ++ [":"; " "] ++ [] ++ []).
    rewrite parse_member by reflexivity. cbn [List.app].
    now rewrite parse_value_nothing.
  - cbn [values map snd forallb] in Hs. fold (values d1) in Hs.
    apply andb_prop in Hs as [Hv Hd].
    destruct f as [|f]; [reflexivity|].
    assert (exists t, encode_value v1 = Some t) as [t Ht]
      by (destruct v1; try discriminate; eexists; reflexivity).
    cbn [flat_map]. rewrite (member_comma_text k1 v1 t Ht).
    rewrite <- !List.app_assoc.
    rewrite parse_member by (eapply skip_ws_encoded; exact Ht).
    cbn [List.app].
    set (rest := flat_map member_comma d1 ++ encode_basestring_ascii k ++ [":"; " "]) in *.
    destruct (read_back v1) as [j|] eqn:Hj.
    + destruct f as [|f]; [reflexivity|].
      rewrite (parse_value_encoded f v1 t j ("," :: " " :: rest) Ht Hj eq_refl).
      change (skip_ws ("," :: " " :: rest)) with ("," :: " " :: rest).
      change (strip ["}"] ("," :: " " :: rest)) with (@None text).
      change (strip [","] ("," :: " " :: rest)) with (Some (" " :: rest)).
      cbv iota. change (skip_ws (" " :: rest)) with (skip_ws rest).
      subst rest. rewrite skip_ws_fragment. now rewrite (IH (S f) Hd).
    + now rewrite (parse_value_not_finite f v1 t _ Ht Hj).
Qed.

Lemma loads_fragment d1 k b d2 :
  forallb serializable (values d1) = true ->
  loads (dumps (d1 ++ (k, VBytes b) :: d2)) = None.
Proof.
  intros Hs. rewrite (dumps_fragment d1 k b d2 Hs).
  set (x := flat_map member_comma d1 ++ encode_basestring_ascii k ++ [":"; " "]).
  unfold loads. change (skip_ws ("{" :: x)) with ("{" :: x).
  cbn [List.length].
  change (parse_value (S (S (List.length x))) ("{" :: x))
    with (match strip ["}"] (skip_ws x) with
          | Some r' => Some (JObject [], r')
          | None =>
              match parse_members (S (List.length x)) (skip_ws x) with
              | Some (m, r') => Some (JObject m, r')
              | None => None
              end
          end).
  subst x. rewrite skip_ws_fragment, strip_brace_fragment.
  now rewrite (parse_members_fragment d1 k _ Hs).
Qed.

Lemma split_lines_then_piece (ls : list text) piece :
  Forall (fun l => ~ In LF l) ls ->
  ~ In LF piece -> piece <> [] ->
  split_lines (flat_map (fun l => l ++ [LF]) ls ++ piece) = ls ++ [piece].
Proof.
  intros Hls Hp Hne. induction Hls as [|l ls Hl _ IH]; cbn [flat_map List.app].
  - now apply split_lines_piece.
  - rewrite <- !List.app_assoc. cbn [List.app].
    rewrite split_lines_line by assumption. now rewrite IH.
Qed.

Lemma flat_map_lines cols (rows : list row) :
  flat_map (fun r => line_of cols r ++ [LF]) rows
  = flat_map (fun l => l ++ [LF]) (map (line_of cols) rows).
Proof.
  induction rows as [|r rows IH]; [reflexivity|]. cbn [flat_map map]. now rewrite IH.
Qed.

(** X12.  After a run that fails in serializing a row, the destination
    file has one line for each row before the failing one and one last
    line, without a line feed, for the failing row; that last line is
    not a JSON text, so a reader of the file as JSON Lines fails on
    it. *)
Theorem X12_failed_export_ends_in_a_broken_line w t :
  source_table w = Some t ->
  out_openable w = true ->
  forallb (goes_through (t_columns t)) (t_rows t) = false ->
  exists pre bad post w',
    t_rows t = pre ++ bad :: post /\
    export_logs w = (Raise type_error, w') /\
    split_lines (content w')
    = map (line_of (t_columns t)) pre ++ [line_of (t_columns t) bad] /\
    List.length (split_lines (content w')) = S (List.length pre) /\
    valid (line_of (t_columns t) bad) = false.
Proof.
  intros Ht Hop Hfail.
  destruct (source_table_database w t Ht) as (ts & Hdb & Hf).
  destruct (first_failing _ _ Hfail) as (pre & bad & post & Hrows & Hpre & Hbad).
  pose proof Hbad as Hbad'. rewrite goes_through_serializable in Hbad'.
  destruct (first_bytes _ Hbad') as (d1 & k & b & d2 & Hentry & Hd1).
  destruct (export_logs_table w ts t Hdb Hf Hop) as (w' & Hrun & Hout & _).
  rewrite Hrows, (written_stops _ _ _ _ Hpre Hbad) in Hrun, Hout.
  cbn [fst snd ended] in Hrun, Hout.
  assert (split_lines (content w')
          = map (line_of (t_columns t)) pre ++ [line_of (t_columns t) bad]) as Hl.
  { unfold content. rewrite Hout, flat_map_lines.
    apply split_lines_then_piece.
    - apply Forall_forall. intros l Hin. apply in_map_iff in Hin as (r & <- & _).
      apply dumps_no_LF.
    - apply dumps_no_LF.
    - apply dumps_not_empty. }
  exists pre, bad, post, w'. repeat split; auto.
  - rewrite Hl, length_app, length_map. cbn [List.length]. lia.
  - unfold valid, line_of. rewrite Hentry. now rewrite (loads_fragment d1 k b d2 Hd1).
Qed.

Lemma X12_failed_export_witness :
  exists pre bad post w',
    t_rows with_blob = pre ++ bad :: post /\
    export_logs (fresh (store_of with_blob) stale true) = (Raise type_error, w') /\
    split_lines (content w')
    = map (line_of (t_columns with_blob)) pre ++ [line_of (t_columns with_blob) bad] /\
    List.length (split_lines (content w')) = S (List.length pre) /\
    valid (line_of (t_columns with_blob) bad) = false.
Proof.
  apply (X12_failed_export_ends_in_a_broken_line
           (fresh (store_of with_blob) stale true) with_blob); reflexivity.
Defined.

(* ------------------------------------------------------------------ *)
(** ** Nothing is lost *)

Lemma type_mapping_injective v1 v2 :
  plain v1 = true -> plain v2 = true ->
  type_mapping v1 = type_mapping v2 -> v1 = v2.
Proof.
  unfold plain. intros H1 H2 E.
  destruct v1 as [|z1|[n1| | |]|s1|b1], v2 as [|z2|[n2| | |]|s2|b2];
    cbn in H1, H2, E; try discriminate; try reflexivity.
  - injection E as Es Ea. f_equal. 
    destruct (z1 <? 0)%Z eqn:L1, (z2 <? 0)%Z eqn:L2; try discriminate;
      rewrite ?Z.ltb_lt, ?Z.ltb_ge in *; lia.
  - injection E as <-. cbn in H2. discriminate.
  - injection E as ->. cbn in H1. discriminate.
  - now injection E as ->.
  - now injection E as ->.
Qed.

Lemma combine_injective {A B} (l : list A) (a b : list B) :
  List.length a = List.length l -> List.length b = List.length l ->
  combine l a = combine l b -> a = b.
Proof.
  revert a b. induction l as [|x l IH]; intros [|y a] [|z b] Ha Hb E;
    try discriminate; [reflexivity|].
  cbn [combine] in E. injection E as -> E. f_equal. apply IH; auto.
Qed.

Lemma plain_parts (r : row) :
  forallb plain r = true ->
  forallb serializable r = true /\ forallb finite_value r = true /\
  forallb scalar_value r = true.
Proof.
  induction r as [|v r IH]; [now repeat split|]. cbn [forallb]. intros H.
  apply andb_prop in H as [Hv Hr]. destruct (IH Hr) as (I1 & I2 & I3).
  unfold plain in Hv.
  apply andb_prop in Hv as [Hv _]. apply andb_prop in Hv as [Hv H3].
  apply andb_prop in Hv as [H1 H2].
  now rewrite H1, H2, H3, I1, I2, I3.
Qed.

Lemma images_injective (r1 r2 : row) :
  forallb plain r1 = true -> forallb plain r2 = true ->
  map type_mapping r1 = map type_mapping r2 -> r1 = r2.
Proof.
  revert r2. induction r1 as [|v1 r1 IH]; intros [|v2 r2] H1 H2 E;
    try discriminate; [reflexivity|].
  cbn [forallb] in H1, H2.
  apply andb_prop in H1 as [P1 H1]. apply andb_prop in H2 as [P2 H2].
  cbn [map] in E. injection E as Ev Er.
  f_equal; [now apply type_mapping_injective|now apply IH].
Qed.

(** X13.  The export loses nothing of a row: in a table with distinct
    column names made of Unicode scalar values, two rows whose values
    are text of scalar values, integers, finite reals or null and that
    give the same line are the same row. *)
Theorem X13_same_line_same_row cols (r1 r2 : row) :
  NoDup cols ->
  forallb (forallb scalar) cols = true ->
  List.length r1 = List.length cols ->
  List.length r2 = List.length cols ->
  forallb plain r1 = true ->
  forallb plain r2 = true ->
  line_of cols r1 = line_of cols r2 ->
  r1 = r2.
Proof.
  intros Hnd Hc L1 L2 P1 P2 E.
  destruct (plain_parts r1 P1) as (S1 & F1 & C1).
  destruct (plain_parts r2 P2) as (S2 & F2 & C2).
  destruct (images_exist r1 S1 F1) as [js1 J1].
  destruct (images_exist r2 S2 F2) as [js2 J2].
  destruct (members_of_row cols r1 js1 L1 Hc C1 J1) as [M1 _].
  destruct (members_of_row cols r2 js2 L2 Hc C2 J2) as [M2 _].
  unfold line_of in E. rewrite !log_entry_distinct in E by assumption.
  unfold zip in E.
  pose proof (loads_dumps _ _ M1) as D1. pose proof (loads_dumps _ _ M2) as D2.
  rewrite E, D2 in D1. injection D1 as D.
  assert (js2 = js1) as ->.
  { apply (combine_injective cols); [| |exact D].
    - rewrite <- L2, <- (length_map type_mapping r2), J2. symmetry. apply length_map.
    - rewrite <- L1, <- (length_map type_mapping r1), J1. symmetry. apply length_map. }
  apply images_injective; auto. congruence.
Qed.

Lemma X13_same_line_witness :
  [VInt 1; VStr (str_of "HELO test")] = [VInt 1; VStr (str_of "HELO test")].
Proof.
  apply (X13_same_line_same_row [str_of "id"; str_of "command"]).
  - repeat constructor; cbn [In]; intros H;
      repeat (destruct H as [H|H]; [discriminate H|]); exact H.
  - reflexivity.
  - reflexivity.
  - reflexivity.
  - reflexivity.
  - reflexivity.
  - reflexivity.
Defined.

(* ------------------------------------------------------------------ *)
(** ** The object on a line, read back *)









(* ------------------------------------------------------------------ *)
(** ** Rows and columns of different lengths *)






